(** * ai-news-aggregator: the pipeline's deduplication and enrichment
      contracts and the two TypeScript API clients, embedded in Rocq.

    The Python pipeline nodes (src/aggregator/graph/nodes/*.py) are described
    by docs/langgraph-data-flow.md; the admin and frontend clients are
    TypeScript.  Field names follow the sources (snake_case on the wire). *)

From Stdlib Require Import ZArith QArith Qround Ascii Sorting.Sorted Lia Lqa.
From stdpp Require Import base list strings gmap pretty.

Local Open Scope Z_scope.

(* ===================================================================== *)
(** ** Pipeline: raw items and the Deduplicate node *)
(* ===================================================================== *)

Module Pipeline.

(** Merge-tracking part of [raw_metadata]
    (docs/langgraph-data-flow.md, "Merging example"). *)
Record Metadata := {
  merged_from_sources : gset string;
  merged_from_ids : gset string;
  extras : gmap string string
}.

(** [RawItem] of graph/state.py; timestamps are seconds since the epoch. *)
Record RawItem := {
  source_type : string;
  source_id : string;
  item_id : string;
  title : option string;
  content : string;
  author : option string;
  published_at : Z;
  url : option string;
  raw_metadata : Metadata
}.

(** A group of the dict built in step 1: the first-seen item and the later
    ones, in input order. *)
Definition Group : Type := RawItem * list RawItem.

Definition members (g : Group) : list RawItem := g.1 :: g.2.

(** Modelled from the spec: step 1 of the Deduplicate node, whose Python file
    (graph/nodes/deduplicate.py) is missing: "groups the batch by a
    content-derived identity key".  Keys keep first-seen order, as a Python
    dict does. *)
Fixpoint add_to_group (x : RawItem) (gs : list (string * Group))
  : list (string * Group) :=
  match gs with
  | [] => [(item_id x, (x, []))]
  | (k, (h, t)) :: gs' =>
      if String.eqb k (item_id x)
      then (k, (h, t ++ [x])) :: gs'
      else (k, (h, t)) :: add_to_group x gs'
  end.

(** Modelled from the spec: the loop of the missing deduplicate.py that files
    every item of the batch under its key, starting from the empty dict. *)
Definition group_by_id (batch : list RawItem) : list (string * Group) :=
  fold_left (fun gs x => add_to_group x gs) batch [].

(** Modelled from the spec: whether the merge takes [candidate] in place of
    [best].  The rule is "deterministic, order-independent" and keeps "the
    longest content": the longer of the two, and of two contents of the same
    length the later one in the order of strings, so that the positions of
    the items never decide (the spec names no rule for contents of equal
    length; any rule that looks at the contents alone fits it). *)
Definition prefers (best candidate : string) : bool :=
  (String.length best <? String.length candidate)%nat ||
  ((String.length best =? String.length candidate)%nat && String.ltb best candidate).

(** Modelled from the spec: "keep the longest content", of the missing
    deduplicate.py; the running best gives way to a content that [prefers]
    ranks above it. *)
Fixpoint longest_content (best : string) (rest : list RawItem) : string :=
  match rest with
  | [] => best
  | x :: rest' =>
      longest_content
        (if prefers best (content x) then content x else best) rest'
  end.

(** Modelled from the spec: "keep the earliest publishedAt". *)
Fixpoint earliest_published (best : Z) (rest : list RawItem) : Z :=
  match rest with
  | [] => best
  | x :: rest' =>
      earliest_published
        (if published_at x <? best then published_at x else best) rest'
  end.

(** Modelled from the spec: the merge rule of the Deduplicate node (the
    missing deduplicate.py).  A group of one is passed through untouched
    ("absence of duplicates ... is a no-op per item"); otherwise the content
    and the date are merged, the source kinds and ids of all members are
    united into the merge-tracking metadata, and "the sourceKind used for
    display is the first-seen source's kind".  The spec does not say where
    the other fields of the canonical item come from: they are carried here
    with the display kind, from the first-seen item, and no statement below
    is about them. *)
Definition merge_group (g : Group) : RawItem :=
  match g.2 with
  | [] => g.1
  | _ :: _ =>
      {| source_type := source_type g.1;
         source_id := source_id g.1;
         item_id := item_id g.1;
         title := title g.1;
         content := longest_content (content g.1) g.2;
         author := author g.1;
         published_at := earliest_published (published_at g.1) g.2;
         url := url g.1;
         raw_metadata :=
           {| merged_from_sources := list_to_set (source_type <$> members g);
              merged_from_ids := list_to_set (source_id <$> members g);
              extras := extras (raw_metadata g.1) |} |}
  end.

(** Modelled from the spec: step 3, "Output is sorted by publishedAt
    descending"; a stable insertion sort, as Python's [sort(reverse=True)]
    is stable. *)
Fixpoint insert_newest_first (x : RawItem) (l : list RawItem) : list RawItem :=
  match l with
  | [] => [x]
  | y :: l' =>
      if published_at y <=? published_at x
      then x :: y :: l'
      else y :: insert_newest_first x l'
  end.

(** Modelled from the spec: the sort of step 3, by insertion from the right,
    which keeps items of equal date in their order. *)
Fixpoint sort_newest_first (l : list RawItem) : list RawItem :=
  match l with
  | [] => []
  | x :: l' => insert_newest_first x (sort_newest_first l')
  end.

(** Modelled from the spec: the Deduplicate node, "given all RawItems from
    one run, return one canonical RawItem per distinct itemId". *)
Definition deduplicate (raw_items : list RawItem) : list RawItem :=
  sort_newest_first (merge_group <$> (snd <$> group_by_id raw_items)).

(** Wall-clock time [h]:[m] on day [d] (days since the epoch), in seconds. *)
Definition clock (d h m : Z) : Z := d * 86400 + h * 3600 + m * 60.

End Pipeline.

(* ===================================================================== *)
(** ** Pipeline: the Summarize node (the specification's Enricher) *)
(* ===================================================================== *)

(** [ArticleSummary], the structured-output schema asked of the model
    (docs/langgraph-data-flow.md, "Structured Output Schema"). *)
Module ArticleSummary.
Record t := {
  title : string;
  summary : string;
  key_points : list string;
  topics : list string;
  article_type : string
}.
End ArticleSummary.

Module Enrich.

(** TOPIC_CATEGORIES of config.py, as listed in the README ("Topic
    Categories") and in docs/langgraph-data-flow.md. *)
Definition TOPIC_CATEGORIES : list string :=
  ["LLMs"; "AI Agents"; "AI Safety"; "MLOps"; "Computer Vision"; "NLP";
   "Open Source"; "Products"; "Research"; "Industry"].

(** The two article types of the schema comment, ["news" or "tutorial"]. *)
Definition ARTICLE_TYPES : list string := ["news"; "tutorial"].

(** [ProcessedItem] of graph/state.py. *)
Record ProcessedItem := {
  item_id : string;
  title : string;
  summary : string;
  key_points : list string;
  topics : list string;
  article_type : string;
  original_urls : list string;
  source_types : list string;
  published_at : Z;
  processed_at : Z;
  embedding : option (list Q)
}.

(** Modelled from the spec: what one call of the external summarization
    service gives back, "structured {title, summary, keyPoints[], topics[],
    articleType} or a validation failure". *)
Inductive ServiceResult :=
  | Structured (r : ArticleSummary.t)
  | ValidationFailure.

(** Modelled from the spec: membership in the fixed category enumeration and
    in the two article types, as the missing summarize.py tests them. *)
Definition known_topic (t : string) : bool :=
  bool_decide (t ∈ TOPIC_CATEGORIES).

Definition known_article_type (t : string) : bool :=
  bool_decide (t ∈ ARTICLE_TYPES).

Section Summarize.
(** The external services: the [k]-th summarization call made for an item,
    and the optional embedding call. *)
Variable llm : Pipeline.RawItem → nat → ServiceResult.
Variable embed : string → option (list Q).
Variable now : Z.

(** Modelled from the spec: the schema check of the missing summarize.py,
    "article type restricted to {news, tutorial}". *)
Definition validate (r : ServiceResult) : option ArticleSummary.t :=
  match r with
  | Structured s =>
      if known_article_type (ArticleSummary.article_type s)
      then Some s else None
  | ValidationFailure => None
  end.

(** Modelled from the spec: the bounded retry loop of the missing
    summarize.py; [tries] calls are left, the next one is call [k]. *)
Fixpoint call_with_retry (item : Pipeline.RawItem) (k tries : nat)
  : option ArticleSummary.t :=
  match tries with
  | O => None
  | S tries' =>
      match validate (llm item k) with
      | Some s => Some s
      | None => call_with_retry item (S k) tries'
      end
  end.

(** Modelled from the spec: "retry up to 2 additional times with the same
    input" ("Retries up to 2 times on validation errors" in the docs). *)
Definition MAX_RETRIES : nat := 2.

(** Modelled from the spec: building the ProcessedItem in the missing
    summarize.py; "unknown categories returned by the external service
    should be dropped, not passed through". *)
Definition to_processed (item : Pipeline.RawItem) (s : ArticleSummary.t)
  : ProcessedItem :=
  {| item_id := Pipeline.item_id item;
     title := ArticleSummary.title s;
     summary := ArticleSummary.summary s;
     key_points := ArticleSummary.key_points s;
     topics := List.filter known_topic (ArticleSummary.topics s);
     article_type := ArticleSummary.article_type s;
     original_urls := option_list (Pipeline.url item);
     source_types :=
       Pipeline.source_type item ::
       elements (Pipeline.merged_from_sources (Pipeline.raw_metadata item)
                 ∖ {[ Pipeline.source_type item ]});
     published_at := Pipeline.published_at item;
     processed_at := now;
     embedding := embed (ArticleSummary.summary s) |}.

(** Modelled from the spec: the per-item algorithm of the Enricher; [None]
    is an item dropped after its retries are exhausted. *)
Definition summarize_item (item : Pipeline.RawItem) : option ProcessedItem :=
  to_processed item <$> call_with_retry item 0 (S MAX_RETRIES).

(** Modelled from the spec: the Summarize node, "one ProcessedItem per
    input item that succeeds, skipping ... items that exhaust retries".  The
    spec lets the results be collected in any order; they are listed here in
    the order of the input, and no statement below is about their order. *)
Definition summarize (items : list Pipeline.RawItem) : list ProcessedItem :=
  omap summarize_item items.
End Summarize.

End Enrich.

(* ===================================================================== *)
(** ** The JavaScript values the two clients compute with *)
(* ===================================================================== *)

Module Js.

(** A JavaScript number: NaN, the two infinities, or a finite value, kept as
    an exact rational (the two zeros are not told apart).  The engine's
    finite numbers are the doubles among the rationals and its arithmetic
    rounds to a double; the operations below are exact.  The two agree where
    the statements of this development apply them: on integers below 2^53 in
    absolute value, and in [formatDuration] on numbers below 2^53. *)
Inductive Number :=
  | NaN
  | Infinity (negative : bool)
  | Finite (q : Q).

Definition of_Z (z : Z) : Number := Finite (inject_Z z).

(** ToBoolean: 0 and NaN are falsy, as is the empty string; an absent
    (undefined) property is falsy. *)
Definition truthy_number (x : Number) : bool :=
  match x with
  | NaN => false
  | Infinity _ => true
  | Finite q => negb (Qeq_bool q 0%Q)
  end.

Definition truthy_string (s : string) : bool :=
  negb (String.eqb s "").

Definition truthy {A} (f : A → bool) (x : option A) : bool :=
  match x with
  | Some v => f v
  | None => false
  end.

(** [x < y]; false as soon as one side is NaN. *)
Definition lt (x y : Number) : bool :=
  match x, y with
  | NaN, _ | _, NaN => false
  | Infinity nx, Infinity ny => nx && negb ny
  | Infinity nx, Finite _ => nx
  | Finite _, Infinity ny => negb ny
  | Finite a, Finite b => negb (Qle_bool b a)
  end.

(** [Math.floor] and [Math.round] (halves go up). *)
Definition Math_floor (x : Number) : Number :=
  match x with
  | Finite q => of_Z (Qfloor q)
  | _ => x
  end.

Definition Math_round (x : Number) : Number :=
  match x with
  | Finite q => of_Z (Qfloor (q + (1 # 2))%Q)
  | _ => x
  end.

(** [x / d] and [x % d] for a positive integer literal [d]; the remainder
    takes the sign of [x].  The quotient is the exact one: the engine rounds
    it to a double, of which [Math.floor] is the same integer as long as [x]
    is an integer below 2^53 in absolute value, or a number from [d] up to
    2^53 (the next integer is then more than half a unit in the last place
    away).  The remainder is exact in the engine too. *)
Definition div_by (x : Number) (d : positive) : Number :=
  match x with
  | Finite q => Finite (q / inject_Z (Z.pos d))%Q
  | _ => x
  end.

Definition truncate (q : Q) : Z :=
  if Qle_bool 0%Q q then Qfloor q else Qceiling q.

Definition rem_by (x : Number) (d : positive) : Number :=
  match x with
  | Finite q =>
      Finite (q - inject_Z (Z.pos d) * inject_Z (truncate (q / inject_Z (Z.pos d))))%Q
  | _ => NaN
  end.

(** An integer that Number::toString prints in plain decimal digits, without
    an exponent. *)
Definition plain_integer (q : Q) : bool :=
  Qeq_bool q (inject_Z (Qfloor q)) && (Z.abs (Qfloor q) <? 10 ^ 21)%Z.

Section Rendering.
(** Number::toString of the engine for the finite values that are not plain
    integers (fractions, exponent notation from 1e21 on). *)
Variable engine_toString : Q → string.

(** A plain integer is printed with its own digits.  The engine prints the
    shortest digits that read back as the same double: the integer's own
    digits up to 2^53, which is as far as the statements about digits go. *)

Definition Number_toString (x : Number) : string :=
  match x with
  | NaN => "NaN"
  | Infinity false => "Infinity"
  | Infinity true => "-Infinity"
  | Finite q => if plain_integer q then pretty (Qfloor q) else engine_toString q
  end.
End Rendering.

(** *** JSON *)

#[warnings="-register-all"] Inductive Json :=
  | JNull
  | JBool (b : bool)
  | JNumber (n : Number)
  | JString (s : string)
  | JArray (items : list Json)
  | JObject (members : list (string * Json)).

(** A value of type [A | null], and an optional property [name?: A] of an
    object: absent when undefined. *)
Definition nullable {A} (f : A → Json) (x : option A) : Json :=
  match x with
  | Some v => f v
  | None => JNull
  end.

Definition optional {A} (name : string) (f : A → Json) (x : option A)
  : list (string * Json) :=
  match x with
  | Some v => [(name, f v)]
  | None => []
  end.

Definition dquote : ascii := "034"%char.
Definition backslash : ascii := "092"%char.

Definition hex_digit (upper : bool) (n : N) : ascii :=
  if (n <? 10)%N then ascii_of_N (48 + n)
  else ascii_of_N ((if upper then 55 else 87) + n).

(** QuoteJSONString: the escapes of [JSON.stringify] for a string of bytes. *)
Definition json_escape_char (c : ascii) : string :=
  let n := N_of_ascii c in
  if Ascii.eqb c dquote then String backslash (String dquote "")
  else if Ascii.eqb c backslash then String backslash (String backslash "")
  else if (n =? 8)%N then String backslash "b"
  else if (n =? 9)%N then String backslash "t"
  else if (n =? 10)%N then String backslash "n"
  else if (n =? 12)%N then String backslash "f"
  else if (n =? 13)%N then String backslash "r"
  else if (n <? 32)%N then
    String backslash
      (String "u" (String "0" (String "0"
         (String (hex_digit false (n / 16)) (String (hex_digit false (n mod 16)) "")))))
  else String c "".

Fixpoint json_escape (s : string) : string :=
  match s with
  | EmptyString => ""
  | String c s' => json_escape_char c +:+ json_escape s'
  end.

Definition json_quote (s : string) : string :=
  String dquote (json_escape s +:+ String dquote "").

Fixpoint join (sep : string) (l : list string) : string :=
  match l with
  | [] => ""
  | [x] => x
  | x :: l' => x +:+ sep +:+ join sep l'
  end.

Section Stringify.
Variable engine_toString : Q → string.

(** [JSON.stringify] without indentation; NaN and the infinities are
    written [null]. *)
Fixpoint JSON_stringify (v : Json) : string :=
  match v with
  | JNull => "null"
  | JBool true => "true"
  | JBool false => "false"
  | JNumber (Finite q) => Number_toString engine_toString (Finite q)
  | JNumber _ => "null"
  | JString s => json_quote s
  | JArray items => "[" +:+ join "," (map JSON_stringify items) +:+ "]"
  | JObject members =>
      "{" +:+
      join "," (map (λ kv, json_quote kv.1 +:+ ":" +:+ JSON_stringify kv.2) members)
      +:+ "}"
  end.
End Stringify.

(** *** Strings that are not well-formed

    A JavaScript string is a sequence of UTF-16 code units and need not be
    well-formed: it may hold a lone surrogate.  A string is kept here as the
    bytes of its UTF-8 encoding, and a lone surrogate as the three bytes of
    its generalized UTF-8 encoding, ED A0..BF 80..BF (a surrogate pair is the
    four bytes of its code point). *)

Definition in_range (lo hi : N) (c : ascii) : bool :=
  ((lo <=? N_of_ascii c) && (N_of_ascii c <=? hi))%N.

(** U+FFFD, the replacement character: EF BF BD. *)
Definition replacement : string :=
  String "239"%char (String "191"%char (String "189"%char "")).

Definition lone_surrogate (a b c : ascii) : bool :=
  in_range 237 237 a && in_range 160 191 b && in_range 128 191 c.

(** The conversion to a scalar value string that a USVString argument goes
    through (what [toWellFormed] returns): every lone surrogate becomes
    U+FFFD. *)
Fixpoint USVString (s : string) : string :=
  match s with
  | EmptyString => ""
  | String a s1 =>
      match s1 with
      | String b (String c s3) =>
          if lone_surrogate a b c then replacement +:+ USVString s3
          else String a (USVString s1)
      | _ => String a (USVString s1)
      end
  end.

(** The second byte that a lead byte of a three-byte or a four-byte
    sequence admits (no overlong forms, no surrogates, nothing above
    U+10FFFF). *)
Definition second_of_three (a b : ascii) : bool :=
  if in_range 224 224 a then in_range 160 191 b
  else if in_range 237 237 a then in_range 128 159 b
  else in_range 128 191 b.

Definition second_of_four (a b : ascii) : bool :=
  if in_range 240 240 a then in_range 144 191 b
  else if in_range 244 244 a then in_range 128 143 b
  else in_range 128 191 b.

(** [isWellFormed]: the bytes are UTF-8, so no surrogate stands alone. *)
Fixpoint isWellFormed (s : string) : bool :=
  match s with
  | EmptyString => true
  | String a s1 =>
      if in_range 0 127 a then isWellFormed s1
      else if in_range 194 223 a then
        match s1 with
        | String b s2 => in_range 128 191 b && isWellFormed s2
        | _ => false
        end
      else if in_range 224 239 a then
        match s1 with
        | String b (String c s3) =>
            second_of_three a b && in_range 128 191 c && isWellFormed s3
        | _ => false
        end
      else if in_range 240 244 a then
        match s1 with
        | String b (String c (String d s4)) =>
            second_of_four a b && in_range 128 191 c && in_range 128 191 d
            && isWellFormed s4
        | _ => false
        end
      else false
  end.

(** "UTF-8 decode without BOM" of the Encoding standard, on any bytes: a
    sequence that is UTF-8 stands, and the longest part of a sequence that is
    not (a byte that cannot start one, or a start and the continuation bytes
    that fit it) is replaced by U+FFFD; decoding goes on at the byte that did
    not fit. *)
Fixpoint utf8_decode (s : string) : string :=
  match s with
  | EmptyString => ""
  | String a s1 =>
      if in_range 0 127 a then String a (utf8_decode s1)
      else if in_range 194 223 a then
        match s1 with
        | String b s2 =>
            if in_range 128 191 b then String a (String b (utf8_decode s2))
            else replacement +:+ utf8_decode s1
        | EmptyString => replacement
        end
      else if in_range 224 239 a then
        match s1 with
        | String b s2 =>
            if second_of_three a b then
              match s2 with
              | String c s3 =>
                  if in_range 128 191 c
                  then String a (String b (String c (utf8_decode s3)))
                  else replacement +:+ utf8_decode s2
              | EmptyString => replacement
              end
            else replacement +:+ utf8_decode s1
        | EmptyString => replacement
        end
      else if in_range 240 244 a then
        match s1 with
        | String b s2 =>
            if second_of_four a b then
              match s2 with
              | String c s3 =>
                  if in_range 128 191 c then
                    match s3 with
                    | String d s4 =>
                        if in_range 128 191 d
                        then String a (String b (String c (String d (utf8_decode s4))))
                        else replacement +:+ utf8_decode s3
                    | EmptyString => replacement
                    end
                  else replacement +:+ utf8_decode s2
              | EmptyString => replacement
              end
            else replacement +:+ utf8_decode s1
        | EmptyString => replacement
        end
      else replacement +:+ utf8_decode s1
  end.

(** *** URLSearchParams *)

(** The list of name-value pairs of the object, scalar value strings. *)
Definition URLSearchParams : Type := list (string * string).

(** The list operation of [set]: the first pair of that name takes the value
    and the other pairs of that name go; without such a pair the new one is
    appended. *)
Fixpoint set_tuple (name value : string) (l : URLSearchParams)
  : URLSearchParams :=
  match l with
  | [] => [(name, value)]
  | (k, v) :: l' =>
      if String.eqb k name
      then (name, value) :: List.filter (λ kv, negb (String.eqb kv.1 name)) l'
      else (k, v) :: set_tuple name value l'
  end.

(** [searchParams.set(name, value)]: both arguments are USVStrings. *)
Definition URLSearchParams_set (name value : string) (l : URLSearchParams)
  : URLSearchParams :=
  set_tuple (USVString name) (USVString value) l.

(** The application/x-www-form-urlencoded byte serializer, on the UTF-8
    bytes of a name or a value. *)
Definition urlencode_safe (c : ascii) : bool :=
  let n := N_of_ascii c in
  ((48 <=? n) && (n <=? 57) || (65 <=? n) && (n <=? 90) || (97 <=? n) && (n <=? 122)
   || (n =? 42) || (n =? 45) || (n =? 46) || (n =? 95))%N.

Definition urlencode_char (c : ascii) : string :=
  let n := N_of_ascii c in
  if (n =? 32)%N then "+"
  else if urlencode_safe c then String c ""
  else String "%" (String (hex_digit true (n / 16)) (String (hex_digit true (n mod 16)) "")).

Fixpoint urlencode (s : string) : string :=
  match s with
  | EmptyString => ""
  | String c s' => urlencode_char c +:+ urlencode s'
  end.

Definition URLSearchParams_toString (l : URLSearchParams) : string :=
  join "&" (map (λ kv, urlencode kv.1 +:+ "=" +:+ urlencode kv.2) l).

End Js.

(* ===================================================================== *)
(** ** fetch, Response and the ApiError class (both api/client.ts) *)
(* ===================================================================== *)

(** [class ApiError extends Error]. *)
Module ApiError.
Record t := {
  name : string;
  message : string;
  status : Z
}.

(** The constructor: [super(message); this.name = 'ApiError';
    this.status = status]. *)
Definition new (message : string) (status : Z) : t :=
  {| name := "ApiError"; message := message; status := status |}.
End ApiError.

Module Fetch.

(** What a promise can be rejected with here: an [ApiError], or another
    error object (the TypeError of a failed [fetch], the SyntaxError of
    [response.json()]). *)
Inductive Error :=
  | Api (e : ApiError.t)
  | Other (name message : string).

(** A settled promise. *)
Inductive Promise (T : Type) :=
  | Fulfilled (v : T)
  | Rejected (e : Error).
Arguments Fulfilled {T} v.
Arguments Rejected {T} e.

(** [RequestInit], the optional second argument of [fetch]. *)
Record RequestInit := {
  method : string;
  headers : list (string * string);
  body : string
}.

(** A [Response] whose body the caller reads at type [T]: [json] is what
    [response.json()] settles to, the body parsed and taken at that type. *)
Record Response (T : Type) := {
  status : Z;
  statusText : string;
  json : Promise T
}.
Arguments status {T} r.
Arguments statusText {T} r.
Arguments json {T} r.

(** [response.ok]: the status is in the range 200-299. *)
Definition ok {T} (r : Response T) : bool :=
  (200 <=? status r) && (status r <=? 299).

End Fetch.

(* ===================================================================== *)
(** ** admin/src: types/index.ts, api/client.ts, components/RunsTable.tsx *)
(* ===================================================================== *)

Module Admin.
Import Fetch.

Definition API_BASE : string := "/api".

(** [interface PipelineRun]. *)
Module PipelineRun.
Inductive Status := running | completed | failed.

(** The string literal each alternative of the union type stands for. *)
Definition literal (s : Status) : string :=
  match s with
  | running => "running"
  | completed => "completed"
  | failed => "failed"
  end.

Record t := {
  run_id : string;
  run_date : string;
  started_at : option string;
  completed_at : option string;
  items_collected : Js.Number;
  items_processed : Js.Number;
  items_persisted : Js.Number;
  status : Status;
  error_message : option string;
  duration_seconds : option Js.Number
}.

(** The object that a record of the interface is: its properties by name,
    in the order of the declaration. *)
Definition entries (r : t) : list (string * Js.Json) :=
  [("run_id", Js.JString (run_id r));
   ("run_date", Js.JString (run_date r));
   ("started_at", Js.nullable Js.JString (started_at r));
   ("completed_at", Js.nullable Js.JString (completed_at r));
   ("items_collected", Js.JNumber (items_collected r));
   ("items_processed", Js.JNumber (items_processed r));
   ("items_persisted", Js.JNumber (items_persisted r));
   ("status", Js.JString (literal (status r)));
   ("error_message", Js.nullable Js.JString (error_message r));
   ("duration_seconds", Js.nullable Js.JNumber (duration_seconds r))].
End PipelineRun.

(** [interface PipelineRunsResponse]. *)
Record PipelineRunsResponse := {
  runs : list PipelineRun.t;
  count : Js.Number
}.

(** [interface RunRequest]. *)
Record RunRequest := {
  backfill_days : Js.Number
}.

(** [interface RunResponse]. *)
Module RunResponse.
Inductive Status := started | completed | failed.

Definition literal (s : Status) : string :=
  match s with
  | started => "started"
  | completed => "completed"
  | failed => "failed"
  end.

Record Stats := {
  total_items : option Js.Number;
  persisted_count : option Js.Number;
  collection_errors : option Js.Number
}.

Record t := {
  status : Status;
  run_id : option string;
  message : string;
  stats : option Stats
}.

(** The objects that the stats and a record of the interface are: their
    properties by name, in the order of the declaration. *)
Definition stats_entries (s : Stats) : list (string * Js.Json) :=
  Js.optional "total_items" Js.JNumber (total_items s) ++
  Js.optional "persisted_count" Js.JNumber (persisted_count s) ++
  Js.optional "collection_errors" Js.JNumber (collection_errors s).

Definition entries (r : t) : list (string * Js.Json) :=
  [("status", Js.JString (literal (status r)));
   ("run_id", Js.nullable Js.JString (run_id r));
   ("message", Js.JString (message r));
   ("stats", Js.nullable (λ s, Js.JObject (stats_entries s)) (stats r))].
End RunResponse.

Section Client.
Variable engine_toString : Q → string.

(** [async function fetchJson<T>(url, options?)], over the [fetch] of the
    page: the promise [fetch(url, options)] settles to. *)
Definition fetchJson {T} (fetch : string → option RequestInit → Promise (Response T))
    (url : string) (options : option RequestInit) : Promise T :=
  match fetch url options with
  | Rejected e => Rejected e
  | Fulfilled response =>
      if negb (ok response)
      then Rejected (Api (ApiError.new
                           ("API request failed: " +:+ statusText response)
                           (status response)))
      else json response
  end.

(** The URL [fetchPipelineRuns(limit = 20)] asks for. *)
Definition fetchPipelineRuns_url (limit : option Js.Number) : string :=
  API_BASE +:+ "/admin/runs?limit=" +:+
  Js.Number_toString engine_toString (default (Js.of_Z 20) limit).

Definition fetchPipelineRuns
    (fetch : string → option RequestInit → Promise (Response PipelineRunsResponse))
    (limit : option Js.Number) : Promise PipelineRunsResponse :=
  fetchJson fetch (fetchPipelineRuns_url limit) None.

(** The object literal [{ backfill_days: backfillDays }]. *)
Definition RunRequest_object (r : RunRequest) : Js.Json :=
  Js.JObject [("backfill_days", Js.JNumber (backfill_days r))].

(** The request [triggerRun(backfillDays = 0)] makes. *)
Definition triggerRun_url : string := API_BASE +:+ "/run".

Definition triggerRun_options (backfillDays : option Js.Number) : RequestInit :=
  {| method := "POST";
     headers := [("Content-Type", "application/json")];
     body := Js.JSON_stringify engine_toString
               (RunRequest_object
                  {| backfill_days := default (Js.of_Z 0) backfillDays |}) |}.

Definition triggerRun
    (fetch : string → option RequestInit → Promise (Response RunResponse.t))
    (backfillDays : option Js.Number) : Promise RunResponse.t :=
  fetchJson fetch triggerRun_url (Some (triggerRun_options backfillDays)).

(** RunsTable.tsx, [formatDuration(seconds: number | null)]. *)
Definition formatDuration (seconds : option Js.Number) : string :=
  match seconds with
  | None => "-"
  | Some seconds =>
      if Js.lt seconds (Js.of_Z 60)
      then Js.Number_toString engine_toString (Js.Math_round seconds) +:+ "s"
      else
        let mins := Js.Math_floor (Js.div_by seconds 60) in
        let secs := Js.Math_round (Js.rem_by seconds 60) in
        Js.Number_toString engine_toString mins +:+ "m " +:+
        Js.Number_toString engine_toString secs +:+ "s"
  end.
End Client.

End Admin.

(* ===================================================================== *)
(** ** frontend/src: types/index.ts, api/client.ts, hooks, components *)
(* ===================================================================== *)

Module Frontend.
Import Fetch.

Definition API_BASE : string := "/api".

(** [interface NewsItem]. *)
Record NewsItem := {
  id : string;
  title : string;
  summary : string;
  key_points : list string;
  topics : list string;
  article_type : string;
  urls : list string;
  sources : list string;
  published_at : string
}.

(** [interface ItemsResponse]; [total] is optional. *)
Record ItemsResponse := {
  items : list NewsItem;
  count : Js.Number;
  total : option Js.Number
}.

(** The [params] object of [fetchItems] and [useNewsItems].  The interface
    [FetchItemsParams] declares [limit], [topic] and [articleType]; the hook
    [useNewsItems] also reads [params.minRelevance], so the object is
    modelled with that property as well. *)
Record FetchItemsParams := {
  limit : option Js.Number;
  topic : option string;
  articleType : option string;
  minRelevance : option Js.Number
}.

(** The default [params = {}]. *)
Definition no_params : FetchItemsParams :=
  {| limit := None; topic := None; articleType := None; minRelevance := None |}.

Section Client.
Variable engine_toString : Q → string.

(** [async function fetchJson<T>(url)]. *)
Definition fetchJson {T} (fetch : string → option RequestInit → Promise (Response T))
    (url : string) : Promise T :=
  match fetch url None with
  | Rejected e => Rejected e
  | Fulfilled response =>
      if negb (ok response)
      then Rejected (Api (ApiError.new
                           ("API request failed: " +:+ statusText response)
                           (status response)))
      else json response
  end.

(** The three conditional [searchParams.set] calls of [fetchItems]. *)
Definition fetchItems_searchParams (params : FetchItemsParams) : Js.URLSearchParams :=
  let searchParams : Js.URLSearchParams := [] in
  let searchParams :=
    match limit params with
    | Some l =>
        if Js.truthy_number l
        then Js.URLSearchParams_set "limit" (Js.Number_toString engine_toString l)
               searchParams
        else searchParams
    | None => searchParams
    end in
  let searchParams :=
    match topic params with
    | Some t =>
        if Js.truthy_string t
        then Js.URLSearchParams_set "topic" t searchParams
        else searchParams
    | None => searchParams
    end in
  let searchParams :=
    match articleType params with
    | Some a =>
        if Js.truthy_string a
        then Js.URLSearchParams_set "article_type" a searchParams
        else searchParams
    | None => searchParams
    end in
  searchParams.

(** The URL [fetchItems] asks for. *)
Definition fetchItems_url (params : FetchItemsParams) : string :=
  let queryString := Js.URLSearchParams_toString (fetchItems_searchParams params) in
  API_BASE +:+ "/items" +:+
  (if Js.truthy_string queryString then "?" +:+ queryString else "").

Definition fetchItems
    (fetch : string → option RequestInit → Promise (Response ItemsResponse))
    (params : FetchItemsParams) : Promise ItemsResponse :=
  fetchJson fetch (fetchItems_url params).

(** What [loadItems] of [useNewsItems] leaves in the hook's state: the
    items, and the error message. *)
Definition loadItems
    (fetch : string → option RequestInit → Promise (Response ItemsResponse))
    (params : FetchItemsParams) : list NewsItem + string :=
  match fetchItems fetch params with
  | Fulfilled response => inl (items response)
  | Rejected (Api e) => inr (ApiError.message e)
  | Rejected (Other _ m) => inr m
  end.
End Client.

(** ArticleTypeFilter.tsx, [typeLabels]. *)
Definition typeLabels : gmap string string :=
  list_to_map [("news", "News"); ("tutorial", "Tutorials")].

(** NewsCard.tsx, [topicColors]. *)
Definition topicColors : gmap string string :=
  list_to_map
    [("LLMs", "bg-purple-100 text-purple-800");
     ("AI Agents", "bg-blue-100 text-blue-800");
     ("AI Safety", "bg-red-100 text-red-800");
     ("MLOps", "bg-green-100 text-green-800");
     ("Computer Vision", "bg-yellow-100 text-yellow-800");
     ("NLP", "bg-indigo-100 text-indigo-800");
     ("Open Source", "bg-orange-100 text-orange-800");
     ("Products", "bg-pink-100 text-pink-800");
     ("Research", "bg-cyan-100 text-cyan-800");
     ("Industry", "bg-gray-100 text-gray-800")].

(** NewsCard.tsx, [articleTypeConfig]: label and colour. *)
Definition articleTypeConfig : gmap string (string * string) :=
  list_to_map
    [("news", ("News", "bg-slate-100 text-slate-700"));
     ("tutorial", ("Tutorial", "bg-teal-100 text-teal-700"))].

End Frontend.

(* ===================================================================== *)
(** ** Names: the specification writes camelCase, the sources snake_case *)
(* ===================================================================== *)

Module Names.




End Names.

(* ===================================================================== *)
(** ** Notions used in the statements, and sample data *)
(* ===================================================================== *)

Module Props.
Import Pipeline.

(** The members of a batch that carry the identity key [k], in input order. *)
Definition has_id (k : string) (x : RawItem) : bool := String.eqb (item_id x) k.

Definition group_in (batch : list RawItem) (k : string) : list RawItem :=
  List.filter (has_id k) batch.

(** The members filed under key [k] in the dict of groups. *)
Fixpoint lookup_group (k : string) (gs : list (string * Group)) : list RawItem :=
  match gs with
  | [] => []
  | (k', g) :: gs' => if String.eqb k' k then members g else lookup_group k gs'
  end.

(** [x] is published no earlier than [y]. *)
Definition newer_or_same (x y : RawItem) : Prop := published_at y <= published_at x.

(** What each of the three conditionals of [fetchItems] contributes. *)
Definition sent_limit (e : Q → string) (p : Frontend.FetchItemsParams)
  : Js.URLSearchParams :=
  match Frontend.limit p with
  | Some l =>
      if Js.truthy_number l
      then [("limit", Js.USVString (Js.Number_toString e l))] else []
  | None => []
  end.

Definition sent_topic (p : Frontend.FetchItemsParams) : Js.URLSearchParams :=
  match Frontend.topic p with
  | Some t => if Js.truthy_string t then [("topic", Js.USVString t)] else []
  | None => []
  end.

Definition sent_articleType (p : Frontend.FetchItemsParams) : Js.URLSearchParams :=
  match Frontend.articleType p with
  | Some a => if Js.truthy_string a then [("article_type", Js.USVString a)] else []
  | None => []
  end.

(** What the form-urlencoded parser reads back for a string that was handed
    to URLSearchParams: the string itself when it is well-formed, and U+FFFD
    in the place of every lone surrogate. *)
Definition read_back (s : string) : string := Js.utf8_decode (Js.USVString s).

(** The same params object with another [minRelevance]. *)
Definition with_minRelevance (r : option Js.Number) (p : Frontend.FetchItemsParams)
  : Frontend.FetchItemsParams :=
  {| Frontend.limit := Frontend.limit p;
     Frontend.topic := Frontend.topic p;
     Frontend.articleType := Frontend.articleType p;
     Frontend.minRelevance := r |}.

End Props.

Module Samples.
Import Pipeline.

Fixpoint repeat_string (n : nat) (s : string) : string :=
  match n with
  | O => ""
  | S n' => s +:+ repeat_string n' s
  end.

Definition fresh_metadata : Metadata :=
  {| merged_from_sources := ∅; merged_from_ids := ∅; extras := ∅ |}.

(** The same article from a feed (200 characters, 09:00) and from a mailbox
    (80 characters, 12:00). *)
Definition rss_item : RawItem :=
  {| source_type := "rss"; source_id := "https://blog.example/feed.xml";
     item_id := "3f2a"; title := Some "Release notes";
     content := repeat_string 200 "a"; author := None;
     published_at := clock 20000 9 0; url := Some "https://blog.example/post";
     raw_metadata := fresh_metadata |}.

Definition gmail_item : RawItem :=
  {| source_type := "gmail"; source_id := "news@example.org";
     item_id := "3f2a"; title := None;
     content := repeat_string 80 "b"; author := None;
     published_at := clock 20000 12 0; url := Some "https://blog.example/post/";
     raw_metadata := fresh_metadata |}.

(** The same article with two contents of the same length. *)
Definition tied_a : RawItem :=
  {| source_type := "rss"; source_id := "https://blog.example/feed.xml";
     item_id := "9c41"; title := Some "Changelog";
     content := "aa"; author := None;
     published_at := clock 20000 9 0; url := Some "https://blog.example/log";
     raw_metadata := fresh_metadata |}.

Definition tied_b : RawItem :=
  {| source_type := "gmail"; source_id := "news@example.org";
     item_id := "9c41"; title := None;
     content := "bb"; author := None;
     published_at := clock 20000 9 0; url := None;
     raw_metadata := fresh_metadata |}.

(** An engine that is never asked: every number below is a plain integer. *)
Definition no_engine (q : Q) : string := "".

(** A summarization service that answers at once. *)
Definition news_summary : ArticleSummary.t :=
  {| ArticleSummary.title := "Release notes";
     ArticleSummary.summary := "A new release.";
     ArticleSummary.key_points := ["faster"; "smaller"];
     ArticleSummary.topics := ["LLMs"; "Gardening"; "Research"];
     ArticleSummary.article_type := "news" |}.

Definition prompt_llm (item : RawItem) (k : nat) : Enrich.ServiceResult :=
  Enrich.Structured news_summary.

Definition no_embedding (text : string) : option (list Q) := None.

(** Responses of the API. *)
Definition respond {T} (r : Fetch.Response T)
  : string → option Fetch.RequestInit → Fetch.Promise (Fetch.Response T) :=
  λ _ _, Fetch.Fulfilled r.

(** An API that answers one URL and is out of reach at every other. *)
Definition only_at {T} (url : string) (r : Fetch.Response T)
  : string → option Fetch.RequestInit → Fetch.Promise (Fetch.Response T) :=
  λ u _, if String.eqb u url then Fetch.Fulfilled r
         else Fetch.Rejected (Fetch.Other "TypeError" "Failed to fetch").

Definition not_found : Fetch.Response Js.Json :=
  {| Fetch.status := 404; Fetch.statusText := "Not Found";
     Fetch.json := Fetch.Fulfilled (Js.JObject [("detail", Js.JString "Not Found")]) |}.

Definition no_content : Fetch.Response Js.Json :=
  {| Fetch.status := 204; Fetch.statusText := "No Content";
     Fetch.json := Fetch.Rejected (Fetch.Other "SyntaxError" "Unexpected end of JSON input") |}.

Definition run_started : Admin.RunResponse.t :=
  {| Admin.RunResponse.status := Admin.RunResponse.started;
     Admin.RunResponse.run_id := Some "run_20240115_143022_abc123";
     Admin.RunResponse.message := "Pipeline started";
     Admin.RunResponse.stats := None |}.

Definition run_started_response : Fetch.Response Admin.RunResponse.t :=
  {| Fetch.status := 200; Fetch.statusText := "OK";
     Fetch.json := Fetch.Fulfilled run_started |}.

Definition finished_run : Admin.PipelineRun.t :=
  {| Admin.PipelineRun.run_id := "run_20240115_143022_abc123";
     Admin.PipelineRun.run_date := "2024-01-15T14:30:22Z";
     Admin.PipelineRun.started_at := Some "2024-01-15T14:30:22Z";
     Admin.PipelineRun.completed_at := Some "2024-01-15T14:35:00Z";
     Admin.PipelineRun.items_collected := Js.of_Z 50;
     Admin.PipelineRun.items_processed := Js.of_Z 42;
     Admin.PipelineRun.items_persisted := Js.of_Z 42;
     Admin.PipelineRun.status := Admin.PipelineRun.completed;
     Admin.PipelineRun.error_message := None;
     Admin.PipelineRun.duration_seconds := Some (Js.Finite (2779 # 10)) |}.

Definition runs_response : Fetch.Response Admin.PipelineRunsResponse :=
  {| Fetch.status := 200; Fetch.statusText := "OK";
     Fetch.json := Fetch.Fulfilled
       {| Admin.runs := [finished_run]; Admin.count := Js.of_Z 1 |} |}.

Definition no_items : Frontend.ItemsResponse :=
  {| Frontend.items := []; Frontend.count := Js.of_Z 0; Frontend.total := None |}.

Definition items_response : Fetch.Response Frontend.ItemsResponse :=
  {| Fetch.status := 200; Fetch.statusText := "OK";
     Fetch.json := Fetch.Fulfilled no_items |}.

(** The params [App] builds with a topic and a type selected. *)
Definition app_params : Frontend.FetchItemsParams :=
  {| Frontend.limit := Some (Js.of_Z 50); Frontend.topic := Some "AI Agents";
     Frontend.articleType := Some "news"; Frontend.minRelevance := None |}.

Definition half : Js.Number := Js.Finite (1 # 2).

End Samples.

(* ===================================================================== *)
(** ** More of the platform: subtraction, includes, the form-urlencoded parser *)
(* ===================================================================== *)

Module JsLib.

(** [x - y]. *)
Definition sub (x y : Js.Number) : Js.Number :=
  match x, y with
  | Js.NaN, _ | _, Js.NaN => Js.NaN
  | Js.Finite a, Js.Finite b => Js.Finite (a - b)%Q
  | Js.Infinity n, Js.Finite _ => Js.Infinity n
  | Js.Finite _, Js.Infinity n => Js.Infinity (negb n)
  | Js.Infinity n, Js.Infinity m => if Bool.eqb n m then Js.NaN else Js.Infinity n
  end.

(** [s.includes(needle)]. *)
Fixpoint includes (s needle : string) : bool :=
  String.prefix needle s ||
  match s with
  | EmptyString => false
  | String _ s' => includes s' needle
  end.

(** The value of a hexadecimal digit. *)
Definition hex_value (c : ascii) : option N :=
  let n := N_of_ascii c in
  if ((48 <=? n) && (n <=? 57))%N then Some (n - 48)%N
  else if ((65 <=? n) && (n <=? 70))%N then Some (n - 55)%N
  else if ((97 <=? n) && (n <=? 102))%N then Some (n - 87)%N
  else None.

(** The bytes that the application/x-www-form-urlencoded parser reads from
    a name or a value: '+' is a space, a '%' followed by two hexadecimal
    digits is that byte, and any other byte stands for itself. *)
Fixpoint urldecode (s : string) : string :=
  match s with
  | EmptyString => ""
  | String c s1 =>
      if Ascii.eqb c "%" then
        match s1 with
        | String a (String b rest) =>
            match hex_value a, hex_value b with
            | Some h, Some l => String (ascii_of_N (16 * h + l)) (urldecode rest)
            | _, _ => String c (urldecode s1)
            end
        | _ => String c (urldecode s1)
        end
      else if Ascii.eqb c "+" then String " " (urldecode s1)
      else String c (urldecode s1)
  end.

(** The pieces of [s] between the occurrences of [sep]. *)
Fixpoint split_on (sep : ascii) (s : string) : list string :=
  match s with
  | EmptyString => [""]
  | String c s' =>
      if Ascii.eqb c sep then "" :: split_on sep s'
      else
        match split_on sep s' with
        | piece :: pieces => String c piece :: pieces
        | [] => [String c ""]
        end
  end.

(** [s] before and after its first [sep]; all of [s] and nothing without
    one. *)
Fixpoint split_first (sep : ascii) (s : string) : string * string :=
  match s with
  | EmptyString => ("", "")
  | String c s' =>
      if Ascii.eqb c sep then ("", s')
      else (String c (split_first sep s').1, (split_first sep s').2)
  end.

(** The bytes of the names and of the values of a query, as the
    application/x-www-form-urlencoded parser finds them: the pieces between
    '&', the empty ones skipped, each split at its first '='. *)
Definition parse_bytes (query : string) : list (string * string) :=
  map (λ piece, (urldecode (split_first "=" piece).1,
                 urldecode (split_first "=" piece).2))
      (List.filter Js.truthy_string (split_on "&" query)).

(** A name and a value, their bytes decoded as UTF-8. *)
Definition decoded (kv : string * string) : string * string :=
  (Js.utf8_decode kv.1, Js.utf8_decode kv.2).

(** The application/x-www-form-urlencoded parser, as
    [new URLSearchParams(query)] runs it. *)
Definition URLSearchParams_parse (query : string) : Js.URLSearchParams :=
  map decoded (parse_bytes query).

(** The path and the query of a URL: what precedes and what follows its
    first '?'. *)
Definition path_of (url : string) : string := (split_first "?" url).1.

Definition query_of (url : string) : string := (split_first "?" url).2.

(** The message of a rejection: every error here is an [Error] object. *)
Definition message_of (err : Fetch.Error) : string :=
  match err with
  | Fetch.Api e => ApiError.message e
  | Fetch.Other _ m => m
  end.

End JsLib.

(* ===================================================================== *)
(** ** frontend/src: NewsCard.tsx, NewsList.tsx, App.tsx, useNewsItems.ts *)
(* ===================================================================== *)

Module FrontendUI.
Import Fetch.

Section NewsCard.
Variable engine_toString : Q → string.
(** [new Date(dateString).getTime()], NaN for a string that is not a date,
    and [date.toLocaleDateString()] on that time value. *)
Variable Date_getTime : string → Js.Number.
Variable toLocaleDateString : Js.Number → string.

(** NewsCard.tsx, [formatRelativeTime(dateString)], at the time value [now]
    of [new Date()]. *)
Definition formatRelativeTime (now : Js.Number) (dateString : string) : string :=
  let date := Date_getTime dateString in
  let diffMs := JsLib.sub now date in
  let diffMins := Js.Math_floor (Js.div_by diffMs 60000) in
  let diffHours := Js.Math_floor (Js.div_by diffMins 60) in
  let diffDays := Js.Math_floor (Js.div_by diffHours 24) in
  if Js.lt diffMins (Js.of_Z 60) then
    Js.Number_toString engine_toString diffMins +:+ "m ago"
  else if Js.lt diffHours (Js.of_Z 24) then
    Js.Number_toString engine_toString diffHours +:+ "h ago"
  else if Js.lt diffDays (Js.of_Z 7) then
    Js.Number_toString engine_toString diffDays +:+ "d ago"
  else toLocaleDateString date.
End NewsCard.

(** App.tsx: the params memo, from the selected topic and article type
    ([null] is no selection and becomes [undefined]). *)
Definition App_params (selectedTopic selectedArticleType : option string)
  : Frontend.FetchItemsParams :=
  {| Frontend.limit := Some (Js.of_Z 50);
     Frontend.topic := selectedTopic;
     Frontend.articleType := selectedArticleType;
     Frontend.minRelevance := None |}.

(** The state of [useNewsItems]. *)
Record NewsState := {
  items : list Frontend.NewsItem;
  topics : list string;
  articleTypes : list string;
  loading : bool;
  error : option string
}.

(** The state [useNewsItems] starts from. *)
Definition initial_NewsState : NewsState :=
  {| items := []; topics := []; articleTypes := []; loading := true; error := None |}.

Section Hook.
Variable engine_toString : Q → string.

(** useNewsItems.ts, [loadItems]: the state once the callback has run. *)
Definition loadItems
    (fetch : string → option RequestInit → Promise (Response Frontend.ItemsResponse))
    (params : Frontend.FetchItemsParams) (st : NewsState) : NewsState :=
  match Frontend.fetchItems engine_toString fetch params with
  | Fulfilled response =>
      {| items := Frontend.items response; topics := topics st;
         articleTypes := articleTypes st; loading := false; error := None |}
  | Rejected err =>
      {| items := items st; topics := topics st;
         articleTypes := articleTypes st; loading := false;
         error := Some (JsLib.message_of err) |}
  end.
End Hook.

(** What NewsList.tsx renders. *)
Inductive NewsListView :=
  | Spinner
  | FailedToLoad (error : string)
  | NoArticles
  | Cards (items : list Frontend.NewsItem).

(** NewsList.tsx, [NewsList({ items, loading, error })]. *)
Definition NewsList (items : list Frontend.NewsItem) (loading : bool)
    (error : option string) : NewsListView :=
  if loading then Spinner
  else if Js.truthy Js.truthy_string error then FailedToLoad (default "" error)
  else if (length items =? 0)%nat then NoArticles
  else Cards items.

(** App.tsx: the list under the filters. *)
Definition App_list (st : NewsState) : NewsListView :=
  NewsList (items st) (loading st) (error st).

End FrontendUI.

(* ===================================================================== *)
(** ** admin/src: the LangSmith runs, the Runs page, TriggerButton *)
(* ===================================================================== *)

Module AdminUI.
Import Fetch.

(** [interface LangSmithRun]. *)
Record LangSmithRun := {
  id : string;
  name : string;
  status : string;
  start_time : option string;
  end_time : option string;
  duration_ms : option Js.Number;
  error : option string;
  langsmith_url : string;
  prompt_tokens : option Js.Number;
  completion_tokens : option Js.Number;
  total_tokens : option Js.Number;
  total_cost : option Js.Number
}.

(** [interface LangSmithRunsResponse]. *)
Record LangSmithRunsResponse := {
  runs : list LangSmithRun;
  count : Js.Number;
  project_name : string
}.

(** The state of [useLangSmithRuns]. *)
Record LangSmithState := {
  st_runs : list LangSmithRun;
  projectName : option string;
  loading : bool;
  st_error : option string;
  notConfigured : bool
}.

Definition initial_LangSmithState : LangSmithState :=
  {| st_runs := []; projectName := None; loading := true; st_error := None;
     notConfigured := false |}.

(** What the LangSmith section of the Runs page renders. *)
Inductive LangSmithView :=
  | ErrorBox (message : string)
  | Spinner
  | NotConfiguredNotice
  | NoRunsNotice
  | RunCards (runs : list LangSmithRun).

(** LangSmithRunsList.tsx, [LangSmithRunsList({ runs, loading, notConfigured })]. *)
Definition LangSmithRunsList (runs : list LangSmithRun) (loading notConfigured : bool)
  : LangSmithView :=
  if loading then Spinner
  else if notConfigured then NotConfiguredNotice
  else if (length runs =? 0)%nat then NoRunsNotice
  else RunCards runs.

(** pages/Runs.tsx, the LangSmith section: [lsError ? ... : <LangSmithRunsList>]. *)
Definition Runs_langsmith_section (st : LangSmithState) : LangSmithView :=
  if Js.truthy Js.truthy_string (st_error st) then ErrorBox (default "" (st_error st))
  else LangSmithRunsList (st_runs st) (loading st) (notConfigured st).

(** What TriggerButton keeps of a finished call. *)
Record TriggerResult := {
  result_status : string;
  result_message : string
}.

(** The state of TriggerButton. *)
Record TriggerState := {
  running : bool;
  backfillDays : Js.Number;
  result : option TriggerResult
}.

(** TriggerButton.tsx: the class of the result line. *)
Definition result_class (r : TriggerResult) : string :=
  if String.eqb (result_status r) "completed" then "text-green-600" else "text-red-600".

Section Client.
Variable engine_toString : Q → string.

(** The URL [fetchLangSmithRuns(limit = 10)] asks for. *)
Definition fetchLangSmithRuns_url (limit : option Js.Number) : string :=
  Admin.API_BASE +:+ "/admin/langsmith-runs?limit=" +:+
  Js.Number_toString engine_toString (default (Js.of_Z 10) limit).

Definition fetchLangSmithRuns
    (fetch : string → option RequestInit → Promise (Response LangSmithRunsResponse))
    (limit : option Js.Number) : Promise LangSmithRunsResponse :=
  Admin.fetchJson fetch (fetchLangSmithRuns_url limit) None.

(** useLangSmithRuns.ts, [loadRuns]: the state once the callback has run. *)
Definition loadRuns
    (fetch : string → option RequestInit → Promise (Response LangSmithRunsResponse))
    (limit : option Js.Number) (st : LangSmithState) : LangSmithState :=
  match fetchLangSmithRuns fetch limit with
  | Fulfilled response =>
      {| st_runs := runs response; projectName := Some (project_name response);
         loading := false; st_error := None; notConfigured := false |}
  | Rejected err =>
      if JsLib.includes (JsLib.message_of err) "503"
      then {| st_runs := st_runs st; projectName := projectName st;
              loading := false; st_error := None; notConfigured := true |}
      else {| st_runs := st_runs st; projectName := projectName st;
              loading := false; st_error := Some (JsLib.message_of err);
              notConfigured := false |}
  end.

(** TriggerButton.tsx, [handleTrigger]: the state once the handler has run,
    and whether [onComplete] was called. *)
Definition handleTrigger
    (fetch : string → option RequestInit → Promise (Response Admin.RunResponse.t))
    (st : TriggerState) : TriggerState * bool :=
  match Admin.triggerRun engine_toString fetch (Some (backfillDays st)) with
  | Fulfilled response =>
      ({| running := false; backfillDays := backfillDays st;
          result := Some {| result_status :=
                              Admin.RunResponse.literal (Admin.RunResponse.status response);
                            result_message := Admin.RunResponse.message response |} |},
       true)
  | Rejected err =>
      ({| running := false; backfillDays := backfillDays st;
          result := Some {| result_status := "failed";
                            result_message := JsLib.message_of err |} |},
       false)
  end.
End Client.

End AdminUI.


(* ===================================================================== *)
(** ** admin/src: usePipelineRuns, useHealth, RunsTable, Runs, Dashboard *)
(* ===================================================================== *)

Module AdminPages.
Import Fetch.

(** [interface HealthResponse]. *)
Record HealthResponse := {
  health_status : string;
  database : bool;
  pgvector : bool;
  timestamp : string
}.

(** The state of [usePipelineRuns]. *)
Record RunsState := {
  runs : list Admin.PipelineRun.t;
  loading : bool;
  error : option string
}.

Definition initial_RunsState : RunsState :=
  {| runs := []; loading := true; error := None |}.

(** The state of [useHealth]. *)
Record HealthState := {
  health : option HealthResponse;
  health_loading : bool;
  health_error : option string
}.

Definition initial_HealthState : HealthState :=
  {| health := None; health_loading := true; health_error := None |}.

(** A row of the table of RunsTable.tsx: the text of its cells. *)
Record RunRow := {
  cell_run_id : string;
  cell_status : Admin.PipelineRun.Status;
  cell_started : string;
  cell_duration : string;
  cell_collected : string;
  cell_processed : string;
  cell_persisted : string
}.

(** What RunsTable.tsx renders. *)
Inductive RunsTableView :=
  | TableSpinner
  | NoPipelineRuns
  | RunRows (rows : list RunRow).

(** What the Database Runs section of the Runs page renders. *)
Inductive DatabaseSection :=
  | DatabaseError (message : string)
  | DatabaseTable (table : RunsTableView).

(** The cards of the Dashboard. *)
Inductive HealthCard :=
  | HealthSpinner
  | HealthBadges (overall database pgvector : string)
  | HealthFailed.

Inductive LastRunCard :=
  | LastRunSpinner
  | LastRunBadge (status : Admin.PipelineRun.Status)
  | NoRunsYet.

(** A line of the Recent Runs preview: the badge, the run id and the text
    before "items persisted". *)
Record RecentRun := {
  recent_status : Admin.PipelineRun.Status;
  recent_run_id : string;
  recent_persisted : string
}.

Inductive RecentRuns :=
  | RecentSpinner
  | NoRecentRuns
  | RecentLines (lines : list RecentRun).

Section Pages.
Variable engine_toString : Q → string.
(** [new Date(dateString).toLocaleString()]. *)
Variable Date_toLocaleString : string → string.

(** usePipelineRuns.ts, [loadRuns] of [usePipelineRuns(limit = 20)]: the
    state once the callback has run. *)
Definition loadRuns
    (fetch : string → option RequestInit → Promise (Response Admin.PipelineRunsResponse))
    (limit : option Js.Number) (st : RunsState) : RunsState :=
  match Admin.fetchPipelineRuns engine_toString fetch
          (Some (default (Js.of_Z 20) limit)) with
  | Fulfilled response =>
      {| runs := Admin.runs response; loading := false; error := None |}
  | Rejected err =>
      {| runs := runs st; loading := false; error := Some (JsLib.message_of err) |}
  end.

(** [fetchHealth()] of api/client.ts. *)
Definition fetchHealth
    (fetch : string → option RequestInit → Promise (Response HealthResponse))
  : Promise HealthResponse :=
  Admin.fetchJson fetch (Admin.API_BASE +:+ "/health") None.

(** useHealth.ts, [loadHealth]: the state once the callback has run. *)
Definition loadHealth
    (fetch : string → option RequestInit → Promise (Response HealthResponse))
    (st : HealthState) : HealthState :=
  match fetchHealth fetch with
  | Fulfilled response =>
      {| health := Some response; health_loading := false; health_error := None |}
  | Rejected err =>
      {| health := health st; health_loading := false;
         health_error := Some (JsLib.message_of err) |}
  end.

(** RunsTable.tsx, [formatDate(dateString)]. *)
Definition formatDate (dateString : string) : string :=
  Date_toLocaleString dateString.

(** RunsTable.tsx: one [<tr>] of the table. *)
Definition RunsTable_row (run : Admin.PipelineRun.t) : RunRow :=
  {| cell_run_id := Admin.PipelineRun.run_id run;
     cell_status := Admin.PipelineRun.status run;
     cell_started :=
       match Admin.PipelineRun.started_at run with
       | Some s => if Js.truthy_string s then formatDate s else "-"
       | None => "-"
       end;
     cell_duration :=
       Admin.formatDuration engine_toString (Admin.PipelineRun.duration_seconds run);
     cell_collected :=
       Js.Number_toString engine_toString (Admin.PipelineRun.items_collected run);
     cell_processed :=
       Js.Number_toString engine_toString (Admin.PipelineRun.items_processed run);
     cell_persisted :=
       Js.Number_toString engine_toString (Admin.PipelineRun.items_persisted run) |}.

(** RunsTable.tsx, [RunsTable({ runs, loading })]. *)
Definition RunsTable (runs : list Admin.PipelineRun.t) (loading : bool) : RunsTableView :=
  if loading then TableSpinner
  else if (length runs =? 0)%nat then NoPipelineRuns
  else RunRows (map RunsTable_row runs).

(** pages/Runs.tsx, the Database Runs section: [error ? ... : <RunsTable>]. *)
Definition Runs_database_section (st : RunsState) : DatabaseSection :=
  if Js.truthy Js.truthy_string (error st) then DatabaseError (default "" (error st))
  else DatabaseTable (RunsTable (runs st) (loading st)).

(** pages/Dashboard.tsx: the System Health card. *)
Definition Dashboard_health (st : HealthState) : HealthCard :=
  if health_loading st then HealthSpinner
  else
    match health st with
    | Some h =>
        HealthBadges (health_status h)
          (if database h then "connected" else "disconnected")
          (if pgvector h then "enabled" else "disabled")
    | None => HealthFailed
    end.

(** pages/Dashboard.tsx: [lastRun = runs[0]] and the four stats cards. *)
Definition Dashboard_last_run (st : RunsState) : LastRunCard :=
  if loading st then LastRunSpinner
  else
    match head (runs st) with
    | Some lastRun => LastRunBadge (Admin.PipelineRun.status lastRun)
    | None => NoRunsYet
    end.

Definition Dashboard_items_persisted (st : RunsState) : string :=
  if loading st then "-"
  else Js.Number_toString engine_toString
         (default (Js.of_Z 0) (Admin.PipelineRun.items_persisted <$> head (runs st))).

Definition Dashboard_items_collected (st : RunsState) : string :=
  if loading st then "-"
  else Js.Number_toString engine_toString
         (default (Js.of_Z 0) (Admin.PipelineRun.items_collected <$> head (runs st))).

Definition Dashboard_total_runs (st : RunsState) : string :=
  if loading st then "-"
  else Js.Number_toString engine_toString (Js.of_Z (Z.of_nat (length (runs st)))).

(** pages/Dashboard.tsx: the Recent Runs preview, [runs.slice(0, 3)]. *)
Definition Dashboard_recent_runs (st : RunsState) : RecentRuns :=
  if loading st then RecentSpinner
  else if (length (runs st) =? 0)%nat then NoRecentRuns
  else RecentLines
         (map (λ run, {| recent_status := Admin.PipelineRun.status run;
                         recent_run_id := Admin.PipelineRun.run_id run;
                         recent_persisted :=
                           Js.Number_toString engine_toString
                             (Admin.PipelineRun.items_persisted run) |})
              (take 3 (runs st))).
End Pages.

End AdminPages.

(* ===================================================================== *)
(** ** Notions used in the further statements, and sample data *)
(* ===================================================================== *)

Module QueryProps.

(** Whether the character [c] occurs in [s]. *)
Fixpoint occurs (c : ascii) (s : string) : bool :=
  match s with
  | EmptyString => false
  | String a s' => Ascii.eqb a c || occurs c s'
  end.

(** One name=value piece of a serialized query. *)
Definition piece (kv : string * string) : string :=
  Js.urlencode kv.1 +:+ String "=" (Js.urlencode kv.2).

End QueryProps.

Module MoreSamples.

(** A clock reading and a date parser that knows one date, 2023-11-14
    22:13:20 UTC, and takes every other string for an invalid date. *)
Definition article_time : Z := 1700000000000.

Definition sample_getTime (dateString : string) : Js.Number :=
  if String.eqb dateString "2023-11-14T22:13:20Z" then Js.of_Z article_time else Js.NaN.

Definition sample_toLocaleDateString (time : Js.Number) : string :=
  match time with
  | Js.Finite _ => "11/14/2023"
  | _ => "Invalid Date"
  end.

(** A LangSmith endpoint that is not configured, answering 503. *)
Definition service_unavailable : Fetch.Response AdminUI.LangSmithRunsResponse :=
  {| Fetch.status := 503; Fetch.statusText := "Service Unavailable";
     Fetch.json := Fetch.Fulfilled
       {| AdminUI.runs := []; AdminUI.count := Js.of_Z 0; AdminUI.project_name := "" |} |}.

Definition no_langsmith_runs : AdminUI.LangSmithRunsResponse :=
  {| AdminUI.runs := []; AdminUI.count := Js.of_Z 0;
     AdminUI.project_name := "ai-news-aggregator" |}.

Definition langsmith_ok : Fetch.Response AdminUI.LangSmithRunsResponse :=
  {| Fetch.status := 200; Fetch.statusText := "OK";
     Fetch.json := Fetch.Fulfilled no_langsmith_runs |}.

(** TriggerButton before the first click, with "Last 7 days" selected. *)
Definition seven_days : AdminUI.TriggerState :=
  {| AdminUI.running := false; AdminUI.backfillDays := Js.of_Z 7;
     AdminUI.result := None |}.

(** Two more feed items, with keys of their own. *)
Definition older_item : Pipeline.RawItem :=
  {| Pipeline.source_type := "rss"; Pipeline.source_id := "https://lab.example/rss";
     Pipeline.item_id := "77b0"; Pipeline.title := Some "Benchmarks";
     Pipeline.content := "Numbers."; Pipeline.author := None;
     Pipeline.published_at := Pipeline.clock 19999 18 30;
     Pipeline.url := Some "https://lab.example/benchmarks";
     Pipeline.raw_metadata := Samples.fresh_metadata |}.

(** A service whose first two answers fail validation. *)
Definition slow_llm (item : Pipeline.RawItem) (k : nat) : Enrich.ServiceResult :=
  match k with
  | 2%nat => Enrich.Structured Samples.news_summary
  | _ => Enrich.ValidationFailure
  end.

(** A service that never answers validly. *)
Definition failing_llm (item : Pipeline.RawItem) (k : nat) : Enrich.ServiceResult :=
  Enrich.ValidationFailure.

(** A run that has just started. *)
Definition running_run : Admin.PipelineRun.t :=
  {| Admin.PipelineRun.run_id := "run_20240116_090000_def456";
     Admin.PipelineRun.run_date := "2024-01-16T09:00:00Z";
     Admin.PipelineRun.started_at := None;
     Admin.PipelineRun.completed_at := None;
     Admin.PipelineRun.items_collected := Js.of_Z 0;
     Admin.PipelineRun.items_processed := Js.of_Z 0;
     Admin.PipelineRun.items_persisted := Js.of_Z 0;
     Admin.PipelineRun.status := Admin.PipelineRun.running;
     Admin.PipelineRun.error_message := None;
     Admin.PipelineRun.duration_seconds := None |}.

(** A locale that shows a date string as it is. *)
Definition as_written (dateString : string) : string := dateString.

End MoreSamples.

(* ===================================================================== *)
(** * Properties *)
(* ===================================================================== *)

(** ** Deduplicate: grouping *)

Section Deduplicate.
Import Pipeline Props.

Lemma lookup_group_add k x gs :
  lookup_group k (add_to_group x gs) =
  if has_id k x then lookup_group k gs ++ [x] else lookup_group k gs.
Proof.
  unfold has_id. induction gs as [|[k' [h t]] gs IH]; simpl.
  - destruct (String.eqb_spec (item_id x) k); reflexivity.
  - destruct (String.eqb_spec k' (item_id x)) as [E|E]; simpl.
    + subst k'. destruct (String.eqb_spec (item_id x) k); reflexivity.
    + destruct (String.eqb_spec k' k) as [E'|E'].
      * subst k'. destruct (String.eqb_spec (item_id x) k); [congruence|reflexivity].
      * exact IH.
Qed.

Lemma lookup_group_fold k l : forall gs,
  lookup_group k (fold_left (fun gs x => add_to_group x gs) l gs) =
  lookup_group k gs ++ List.filter (has_id k) l.
Proof.
  induction l as [|x l IH]; intros gs; simpl.
  - now rewrite app_nil_r.
  - rewrite IH, lookup_group_add. destruct (has_id k x); simpl.
    + now rewrite <- app_assoc.
    + reflexivity.
Qed.

Lemma lookup_group_by_id k batch :
  lookup_group k (group_by_id batch) = group_in batch k.
Proof. unfold group_by_id. now rewrite lookup_group_fold. Qed.

Lemma keys_add x gs :
  (add_to_group x gs).*1 =
  if bool_decide (item_id x ∈ gs.*1) then gs.*1 else gs.*1 ++ [item_id x].
Proof.
  induction gs as [|[k' [h t]] gs IH]; csimpl.
  - reflexivity.
  - destruct (String.eqb_spec k' (item_id x)) as [E|E]; csimpl.
    + subst. rewrite bool_decide_eq_true_2 by constructor. reflexivity.
    + rewrite IH. case_bool_decide as H1; case_bool_decide as H2; try reflexivity.
      * exfalso. apply H2. now constructor.
      * exfalso. apply elem_of_cons in H2 as [?|?]; [congruence|tauto].
Qed.

Lemma keys_NoDup_add x gs : NoDup gs.*1 -> NoDup (add_to_group x gs).*1.
Proof.
  intros H. rewrite keys_add. case_bool_decide as E; [exact H|].
  apply NoDup_app. split; [exact H|]. split.
  - intros y Hy Hy'. apply list_elem_of_singleton in Hy'. subst. tauto.
  - apply NoDup_singleton.
Qed.

Lemma keys_NoDup_fold l : forall gs, NoDup gs.*1 ->
  NoDup (fold_left (fun gs x => add_to_group x gs) l gs).*1.
Proof.
  induction l as [|x l IH]; intros gs H; simpl; [exact H|].
  apply IH, keys_NoDup_add, H.
Qed.

Lemma keys_NoDup batch : NoDup (group_by_id batch).*1.
Proof. apply keys_NoDup_fold. constructor. Qed.

Lemma lookup_group_elem k g gs :
  NoDup gs.*1 -> (k, g) ∈ gs -> lookup_group k gs = members g.
Proof.
  induction gs as [|[k' g'] gs IH]; csimpl; intros ND Hin.
  - inversion Hin.
  - apply NoDup_cons in ND as [Hk ND].
    apply elem_of_cons in Hin as [E|Hin].
    + inversion E; subst. now rewrite String.eqb_refl.
    + destruct (String.eqb_spec k' k) as [E|E].
      * subst. exfalso. apply Hk. apply list_elem_of_fmap. now exists (k, g).
      * now apply IH.
Qed.

Lemma lookup_group_found k h t gs :
  lookup_group k gs = h :: t -> exists g, (k, g) ∈ gs /\ members g = h :: t.
Proof.
  induction gs as [|[k' g'] gs IH]; simpl; intros H; [discriminate|].
  destruct (String.eqb_spec k' k) as [E|E].
  - subst. exists g'. split; [constructor|exact H].
  - destruct (IH H) as (g & Hg & Hm). exists g. split; [now constructor|exact Hm].
Qed.

Lemma group_members k g batch :
  (k, g) ∈ group_by_id batch -> members g = group_in batch k.
Proof.
  intros H. rewrite <- lookup_group_by_id. symmetry.
  apply lookup_group_elem; [apply keys_NoDup|exact H].
Qed.

Lemma group_in_id batch k x : In x (group_in batch k) -> item_id x = k.
Proof.
  unfold group_in, has_id. intros H. apply filter_In in H as [_ H].
  now apply String.eqb_eq.
Qed.

Lemma merge_group_id g : item_id (merge_group g) = item_id g.1.
Proof. destruct g as [h [|y t]]; reflexivity. Qed.

Lemma group_head_id k g batch : (k, g) ∈ group_by_id batch -> item_id g.1 = k.
Proof.
  intros H. apply (group_in_id batch). rewrite <- (group_members _ _ _ H).
  now left.
Qed.

(** Sorting newest first. *)
Lemma insert_perm x l : Permutation (insert_newest_first x l) (x :: l).
Proof.
  induction l as [|y l IH]; simpl; [reflexivity|].
  destruct (published_at y <=? published_at x); [reflexivity|].
  rewrite IH. apply perm_swap.
Qed.

Lemma sort_perm l : Permutation (sort_newest_first l) l.
Proof.
  induction l as [|x l IH]; simpl; [reflexivity|].
  rewrite insert_perm. now constructor.
Qed.

Lemma insert_sorted x l :
  Sorted newer_or_same l -> Sorted newer_or_same (insert_newest_first x l).
Proof.
  induction l as [|y l IH]; simpl; intros H.
  - repeat constructor.
  - destruct (Z.leb_spec (published_at y) (published_at x)) as [L|L].
    + constructor; [exact H|]. constructor. exact L.
    + inversion H as [|? ? Hs Hh]; subst. constructor; [now apply IH|].
      destruct l as [|z l]; simpl.
      * constructor. unfold newer_or_same. lia.
      * destruct (Z.leb_spec (published_at z) (published_at x)).
        -- constructor. unfold newer_or_same. lia.
        -- inversion Hh; subst. now constructor.
Qed.

Lemma sort_sorted l : Sorted newer_or_same (sort_newest_first l).
Proof.
  induction l as [|x l IH]; simpl; [constructor|]. now apply insert_sorted.
Qed.

Lemma sort_of_sorted l : Sorted newer_or_same l -> sort_newest_first l = l.
Proof.
  induction l as [|x l IH]; simpl; intros H; [reflexivity|].
  inversion H as [|? ? Hs Hh]; subst. rewrite (IH Hs).
  destruct Hh as [|y l Hxy]; simpl; [reflexivity|].
  unfold newer_or_same in Hxy.
  destruct (Z.leb_spec (published_at y) (published_at x)); [reflexivity|lia].
Qed.

(** Groups of a batch whose identity keys are all different. *)
Lemma add_fresh x gs :
  item_id x ∉ gs.*1 -> add_to_group x gs = gs ++ [(item_id x, (x, []))].
Proof.
  induction gs as [|[k' [h t]] gs IH]; csimpl; intros H; [reflexivity|].
  apply not_elem_of_cons in H as [H1 H2].
  destruct (String.eqb_spec k' (item_id x)); [congruence|].
  now rewrite IH.
Qed.

Lemma fold_fresh l : forall gs,
  NoDup (gs.*1 ++ (item_id <$> l)) ->
  fold_left (fun gs x => add_to_group x gs) l gs =
  gs ++ ((fun x => (item_id x, (x, []))) <$> l).
Proof.
  induction l as [|x l IH]; intros gs H; csimpl.
  - now rewrite app_nil_r.
  - csimpl in H. rewrite add_fresh.
    + rewrite IH.
      * now rewrite <- app_assoc.
      * rewrite fmap_app. csimpl. now rewrite <- app_assoc.
    + apply NoDup_app in H as (_ & H & _). intros Hin. apply (H _ Hin). now left.
Qed.

Lemma group_by_id_distinct l :
  NoDup (item_id <$> l) ->
  group_by_id l = (fun x => (item_id x, (x, []))) <$> l.
Proof. intros H. unfold group_by_id. now rewrite fold_fresh. Qed.

Lemma merged_ids gs :
  (forall k g, (k, g) ∈ gs -> item_id g.1 = k) ->
  item_id <$> (merge_group <$> gs.*2) = gs.*1.
Proof.
  induction gs as [|[k g] gs IH]; csimpl; intros H; [reflexivity|].
  rewrite merge_group_id, (H k g) by constructor.
  f_equal. apply IH. intros k' g' Hin. apply H. now constructor.
Qed.

Lemma deduplicate_ids batch :
  Permutation (item_id <$> deduplicate batch) (group_by_id batch).*1.
Proof.
  unfold deduplicate. rewrite sort_perm.
  rewrite merged_ids; [reflexivity|].
  intros k g. apply group_head_id.
Qed.

Lemma deduplicate_distinct batch : NoDup (item_id <$> deduplicate batch).
Proof. rewrite deduplicate_ids. apply keys_NoDup. Qed.

Lemma merge_singletons l :
  merge_group <$> ((fun x => (item_id x, (x, []))) <$> l).*2 = l.
Proof. induction l as [|x l IH]; csimpl; [reflexivity|]. now f_equal. Qed.

(** C2: deduplication is idempotent.  For every input batch, running the
    Deduplicate node on its own output gives that output back: the same
    items with the same merged fields, in the same order. *)
Theorem deduplicate_idempotent (batch : list RawItem) :
  deduplicate (deduplicate batch) = deduplicate batch.
Proof.
  unfold deduplicate at 1.
  rewrite group_by_id_distinct by apply deduplicate_distinct.
  rewrite merge_singletons.
  apply sort_of_sorted. apply sort_sorted.
Qed.

(** The order in which the merge ranks contents. *)
Lemma string_compare_refl (s : string) : String.compare s s = Eq.
Proof.
  induction s as [|c s IH]; [reflexivity|]. simpl.
  unfold Ascii.compare. now rewrite N.compare_refl.
Qed.

Lemma string_compare_trans (a : string) : forall b c,
  String.compare a b = Lt -> String.compare b c = Lt -> String.compare a c = Lt.
Proof.
  induction a as [|x a IH]; intros [|y b] [|z c]; simpl; try discriminate; try reflexivity.
  unfold Ascii.compare.
  destruct (N.compare_spec (N_of_ascii x) (N_of_ascii y)) as [E|L|G]; try discriminate.
  - rewrite E. destruct (N.compare_spec (N_of_ascii y) (N_of_ascii z)); try discriminate; auto.
    apply IH.
  - intros _. destruct (N.compare_spec (N_of_ascii y) (N_of_ascii z)) as [E'|L'|G'];
      try discriminate.
    + intros _. rewrite <- E'. now apply N.compare_lt_iff in L as ->.
    + intros _. assert (H : (N_of_ascii x < N_of_ascii z)%N) by lia.
      now apply N.compare_lt_iff in H as ->.
Qed.

Lemma prefers_irrefl (a : string) : prefers a a = false.
Proof.
  unfold prefers, String.ltb. rewrite Nat.ltb_irrefl, Nat.eqb_refl, string_compare_refl.
  reflexivity.
Qed.

Lemma prefers_length (a b : string) :
  prefers a b = true -> (String.length a <= String.length b)%nat.
Proof.
  unfold prefers. intros H. apply orb_true_iff in H as [H|H].
  - apply Nat.ltb_lt in H. lia.
  - apply andb_true_iff in H as [H _]. apply Nat.eqb_eq in H. lia.
Qed.

Lemma prefers_longer (a b : string) :
  (String.length a < String.length b)%nat -> prefers a b = true.
Proof. intros H. unfold prefers. apply Nat.ltb_lt in H. now rewrite H. Qed.

Lemma prefers_shorter (a b : string) :
  (String.length b < String.length a)%nat -> prefers a b = false.
Proof.
  intros H. unfold prefers.
  destruct (Nat.ltb_spec (String.length a) (String.length b)); [lia|].
  destruct (Nat.eqb_spec (String.length a) (String.length b)); [lia|]. reflexivity.
Qed.

Lemma prefers_trans (a b c : string) :
  prefers a b = true -> prefers b c = true -> prefers a c = true.
Proof.
  unfold prefers, String.ltb. intros H1 H2.
  destruct (Nat.ltb_spec (String.length a) (String.length b)) as [L1|L1];
  destruct (Nat.ltb_spec (String.length b) (String.length c)) as [L2|L2];
  destruct (Nat.ltb_spec (String.length a) (String.length c)) as [L3|L3];
    try reflexivity; try lia; simpl in *.
  - apply andb_true_iff in H2 as [H2 _]. apply Nat.eqb_eq in H2. lia.
  - apply andb_true_iff in H1 as [H1 _]. apply Nat.eqb_eq in H1. lia.
  - apply andb_true_iff in H1 as [E1 H1]. apply andb_true_iff in H2 as [E2 H2].
    apply Nat.eqb_eq in E1, E2.
    destruct (Nat.eqb_spec (String.length a) (String.length c)); [simpl|lia].
    destruct (String.compare a b) eqn:C1; try discriminate.
    destruct (String.compare b c) eqn:C2; try discriminate.
    now rewrite (string_compare_trans a b c C1 C2).
Qed.

Lemma prefers_total (a b : string) : a = b \/ prefers a b = true \/ prefers b a = true.
Proof.
  unfold prefers, String.ltb.
  destruct (Nat.ltb_spec (String.length a) (String.length b)) as [L1|L1]; [auto|].
  destruct (Nat.ltb_spec (String.length b) (String.length a)) as [L2|L2]; [auto|].
  assert (E : String.length a = String.length b) by lia.
  rewrite E, Nat.eqb_refl. simpl.
  rewrite (String.compare_antisym b a).
  destruct (String.compare a b) eqn:C; simpl; auto.
  left. now apply String.compare_eq_iff.
Qed.

Lemma prefers_asym (a b : string) : prefers a b = true -> prefers b a = false.
Proof.
  intros H. destruct (prefers b a) eqn:E; [|reflexivity].
  pose proof (prefers_trans a b a H E) as T. now rewrite prefers_irrefl in T.
Qed.

(** The merge rule on one group. *)
Lemma longest_content_spec rest : forall best,
  let r := longest_content best rest in
  (r = best \/ exists x, In x rest /\ content x = r) /\
  (r = best \/ prefers best r = true) /\
  (forall x, In x rest -> content x = r \/ prefers (content x) r = true).
Proof.
  induction rest as [|y rest IH]; intros best; cbv zeta; simpl.
  - split; [now left|]. split; [now left|tauto].
  - specialize (IH (if prefers best (content y) then content y else best)).
    cbv zeta in IH. destruct IH as (Hin & Hb & Hmax).
    destruct (prefers best (content y)) eqn:P.
    + split; [|split].
      * right. destruct Hin as [E|(x & Hx & E)]; [exists y|exists x]; auto.
      * right. destruct Hb as [->|Hb]; [exact P|exact (prefers_trans _ _ _ P Hb)].
      * intros x [<-|Hx]; [destruct Hb; auto|now apply Hmax].
    + split; [|split].
      * destruct Hin as [E|(x & Hx & E)]; [now left|right; exists x; auto].
      * exact Hb.
      * intros x [<-|Hx]; [|now apply Hmax].
        destruct (prefers_total (content y) best) as [E|[Q|Q]]; [| |congruence].
        -- rewrite E. destruct Hb; auto.
        -- destruct Hb as [->|Hb]; [now right|]. right. exact (prefers_trans _ _ _ Q Hb).
Qed.

Lemma earliest_published_spec rest : forall best,
  let r := earliest_published best rest in
  (r = best \/ exists x, In x rest /\ published_at x = r) /\
  r <= best /\
  (forall x, In x rest -> r <= published_at x).
Proof.
  induction rest as [|y rest IH]; intros best; cbv zeta; simpl.
  - split; [now left|]. split; [lia|tauto].
  - specialize (IH (if published_at y <? best then published_at y else best)).
    cbv zeta in IH. destruct IH as (Hin & Hb & Hmax).
    destruct (Z.ltb_spec (published_at y) best) as [L|L].
    + split; [|split].
      * right. destruct Hin as [E|(x & Hx & E)]; [exists y|exists x]; auto.
      * lia.
      * intros x [->|Hx]; [exact Hb|now apply Hmax].
    + split; [|split].
      * destruct Hin as [E|(x & Hx & E)]; [now left|right; exists x; auto].
      * exact Hb.
      * intros x [->|Hx]; [lia|now apply Hmax].
Qed.

Lemma merge_group_ranked g :
  (exists x, In x (members g) /\ content x = content (merge_group g)) /\
  (forall x, In x (members g) ->
     content x = content (merge_group g) \/
     prefers (content x) (content (merge_group g)) = true).
Proof.
  destruct g as [h [|y t]]; unfold members; simpl.
  - split; [exists h; auto|]. intros x [->|[]]. now left.
  - destruct (longest_content_spec (y :: t) (content h)) as (Hin & Hb & Hmax).
    simpl in Hin, Hb, Hmax. split.
    + destruct Hin as [E|(x & Hx & E)]; [exists h|exists x]; auto.
    + intros x [<-|Hx]; [destruct Hb; auto|now apply Hmax].
Qed.

Lemma merge_group_content g :
  (exists x, In x (members g) /\ content x = content (merge_group g)) /\
  (forall x, In x (members g) ->
     (String.length (content x) <= String.length (content (merge_group g)))%nat).
Proof.
  destruct (merge_group_ranked g) as [Hin Hmax]. split; [exact Hin|].
  intros x Hx. destruct (Hmax x Hx) as [->|H]; [apply Nat.le_refl|now apply prefers_length].
Qed.

Lemma merge_group_published g :
  (exists x, In x (members g) /\ published_at x = published_at (merge_group g)) /\
  (forall x, In x (members g) -> published_at (merge_group g) <= published_at x).
Proof.
  destruct g as [h [|y t]]; unfold members; simpl.
  - split; [exists h; auto|]. intros x [->|[]]. apply Z.le_refl.
  - destruct (earliest_published_spec (y :: t) (published_at h)) as (Hin & Hb & Hmax).
    simpl in Hin, Hb, Hmax. split.
    + destruct Hin as [E|(x & Hx & E)]; [exists h|exists x]; auto.
    + intros x [->|Hx]; [exact Hb|now apply Hmax].
Qed.

Lemma merge_group_sources g :
  (2 <= length (members g))%nat ->
  merged_from_sources (raw_metadata (merge_group g)) = list_to_set (source_type <$> members g) /\
  merged_from_ids (raw_metadata (merge_group g)) = list_to_set (source_id <$> members g).
Proof.
  destruct g as [h [|y t]]; unfold members; simpl; intros H; [lia|]. split; reflexivity.
Qed.

Lemma merge_group_single g x : members g = [x] -> merge_group g = x.
Proof.
  destruct g as [h [|y t]]; unfold members; simpl; intros H; [|discriminate].
  now inversion H.
Qed.

Lemma deduplicate_elem batch m :
  In m (deduplicate batch) <->
  exists g, (item_id m, g) ∈ group_by_id batch /\ m = merge_group g.
Proof.
  unfold deduplicate. rewrite <- list_elem_of_In, sort_perm, list_elem_of_fmap.
  split.
  - intros (g & -> & Hg). apply list_elem_of_fmap in Hg as ([k g'] & -> & Hin).
    exists g'. simpl. split; [|reflexivity].
    rewrite merge_group_id. now rewrite (group_head_id _ _ _ Hin).
  - intros (g & Hin & ->). exists g. split; [reflexivity|].
    apply list_elem_of_fmap. now exists (item_id (merge_group g), g).
Qed.

Lemma deduplicate_covers batch x :
  In x batch -> exists m, In m (deduplicate batch) /\ item_id m = item_id x.
Proof.
  intros Hx.
  assert (Hg : In x (group_in batch (item_id x))).
  { apply filter_In. split; [exact Hx|]. apply String.eqb_refl. }
  rewrite <- lookup_group_by_id in Hg.
  destruct (lookup_group (item_id x) (group_by_id batch)) as [|h t] eqn:E; [destruct Hg|].
  apply lookup_group_found in E as (g & Hin & _).
  exists (merge_group g).
  assert (Hid : item_id (merge_group g) = item_id x).
  { rewrite merge_group_id. apply (group_head_id _ _ _ Hin). }
  split; [|exact Hid]. apply deduplicate_elem. exists g. now rewrite Hid.
Qed.

Lemma deduplicate_group batch m :
  In m (deduplicate batch) ->
  exists g, members g = group_in batch (item_id m) /\ m = merge_group g.
Proof.
  intros H. apply deduplicate_elem in H as (g & Hin & E).
  exists g. split; [|exact E]. now apply group_members.
Qed.

Lemma group_in_perm batch batch' k :
  Permutation batch batch' -> Permutation (group_in batch k) (group_in batch' k).
Proof.
  unfold group_in. induction 1 as [|x l l' _ IH|x y l|l l' l'' _ IH1 _ IH2]; simpl.
  - reflexivity.
  - destruct (has_id k x); [now constructor|exact IH].
  - destruct (has_id k x), (has_id k y); try reflexivity. apply perm_swap.
  - now rewrite IH1.
Qed.

Lemma merge_order_independent batch batch' m :
  Permutation batch batch' -> In m (deduplicate batch) ->
  exists m', In m' (deduplicate batch') /\ item_id m' = item_id m /\
    content m' = content m /\
    published_at m' = published_at m /\
    merged_from_sources (raw_metadata m') = merged_from_sources (raw_metadata m) /\
    merged_from_ids (raw_metadata m') = merged_from_ids (raw_metadata m).
Proof.
  intros P Hm.
  destruct (deduplicate_group _ _ Hm) as (g & Hg & Em).
  assert (Hh : In g.1 (group_in batch (item_id m))) by (rewrite <- Hg; now left).
  pose proof (group_in_id _ _ _ Hh) as Hid.
  apply filter_In in Hh as [Hh _].
  assert (Hh' : In g.1 batch') by (eapply Permutation_in; eauto).
  destruct (deduplicate_covers _ _ Hh') as (m' & Hm' & Hid').
  rewrite Hid in Hid'.
  destruct (deduplicate_group _ _ Hm') as (g' & Hg' & Em').
  rewrite Hid' in Hg'.
  assert (PG : Permutation (members g) (members g')).
  { rewrite Hg, Hg'. now apply group_in_perm. }
  destruct (merge_group_ranked g) as ((c & Hc & Ec) & Cmax).
  destruct (merge_group_ranked g') as ((c' & Hc' & Ec') & Cmax').
  destruct (merge_group_published g) as ((p & Hp & Ep) & Pmin).
  destruct (merge_group_published g') as ((p' & Hp' & Ep') & Pmin').
  rewrite <- Em in *. rewrite <- Em' in *.
  exists m'. repeat split; try assumption.
  - assert (Hc1 : In c' (members g)) by (eapply Permutation_in; [symmetry|]; eauto).
    assert (Hc2 : In c (members g')) by (eapply Permutation_in; eauto).
    destruct (Cmax c' Hc1) as [E|R]; [congruence|].
    destruct (Cmax' c Hc2) as [E'|R']; [congruence|].
    rewrite Ec' in R. rewrite Ec in R'.
    apply prefers_asym in R. congruence.
  - apply Z.le_antisymm.
    + rewrite <- Ep. apply Pmin'. eapply Permutation_in; eauto.
    + rewrite <- Ep'. apply Pmin. eapply Permutation_in; [symmetry|]; eauto.
  - destruct (members g) as [|x [|y t]] eqn:Eg.
    + destruct g; discriminate.
    + apply Permutation_length_1_inv in PG.
      rewrite Em, Em', (merge_group_single g x), (merge_group_single g' x); auto.
    + rewrite Em, Em'.
      destruct (merge_group_sources g) as [-> _]; [rewrite Eg; simpl; lia|].
      destruct (merge_group_sources g') as [-> _].
      { rewrite <- (Permutation_length PG). simpl; lia. }
      rewrite Eg. now rewrite PG.
  - destruct (members g) as [|x [|y t]] eqn:Eg.
    + destruct g; discriminate.
    + apply Permutation_length_1_inv in PG.
      rewrite Em, Em', (merge_group_single g x), (merge_group_single g' x); auto.
    + rewrite Em, Em'.
      destruct (merge_group_sources g) as [_ ->]; [rewrite Eg; simpl; lia|].
      destruct (merge_group_sources g') as [_ ->].
      { rewrite <- (Permutation_length PG). simpl; lia. }
      rewrite Eg. now rewrite PG.
Qed.

Lemma pair_scenario (a b : RawItem) (d : Z) (batch : list RawItem) :
  item_id a = item_id b ->
  String.length (content a) = 200%nat -> String.length (content b) = 80%nat ->
  published_at a = clock d 9 0 -> published_at b = clock d 12 0 ->
  source_type a <> source_type b ->
  batch = [a; b] \/ batch = [b; a] ->
  exists m, deduplicate batch = [m] /\ content m = content a /\
    published_at m = clock d 9 0 /\
    source_type a ∈ merged_from_sources (raw_metadata m) /\
    source_type b ∈ merged_from_sources (raw_metadata m).
Proof.
  intros Hid La Lb Pa Pb _ Hbatch.
  assert (Hab : prefers (content a) (content b) = false)
    by (apply prefers_shorter; lia).
  assert (Hba : prefers (content b) (content a) = true)
    by (apply prefers_longer; lia).
  destruct Hbatch as [->| ->];
    unfold deduplicate, group_by_id; simpl; rewrite Hid, String.eqb_refl; simpl;
    eexists; (split; [reflexivity|]); unfold merge_group; simpl;
    rewrite ?Hab, ?Hba, Pa, Pb.
  - repeat split; try set_solver.
    destruct (Z.ltb_spec (clock d 12 0) (clock d 9 0)) as [L|L]; [|reflexivity].
    unfold clock in *. lia.
  - repeat split; try set_solver.
    destruct (Z.ltb_spec (clock d 9 0) (clock d 12 0)) as [L|L]; [reflexivity|].
    unfold clock in *. lia.
Qed.

Lemma merged_item_fields batch m :
  In m (deduplicate batch) ->
  let g := group_in batch (item_id m) in
  (exists x, In x g /\ content x = content m) /\
  (forall x, In x g -> (String.length (content x) <= String.length (content m))%nat) /\
  (exists x, In x g /\ published_at x = published_at m) /\
  (forall x, In x g -> published_at m <= published_at x) /\
  ((2 <= length g)%nat ->
     (forall s, s ∈ merged_from_sources (raw_metadata m) <->
                exists x, In x g /\ source_type x = s) /\
     (forall s, s ∈ merged_from_ids (raw_metadata m) <->
                exists x, In x g /\ source_id x = s)).
Proof.
  intros Hm g0. destruct (deduplicate_group _ _ Hm) as (g & Hg & Em).
  subst g0. rewrite <- Hg. clear Hg Hm. rewrite Em. clear Em.
  split; [apply merge_group_content|]. split; [apply merge_group_content|].
  split; [apply merge_group_published|]. split; [apply merge_group_published|].
  intros H2. destruct (merge_group_sources g H2) as [-> ->].
  split; intros s; rewrite elem_of_list_to_set, list_elem_of_fmap;
    setoid_rewrite list_elem_of_In; split; intros (x & ? & ?); exists x; auto.
Qed.

(** C1: two RawItems with the same item_id, one with 200 characters of
    content published at 09:00 and one with 80 characters published at 12:00,
    from two different source kinds, are merged (in either input order) into
    exactly one item that has the 200-character content, is published at
    09:00 and lists both source kinds in merged_from_sources.  In general
    every emitted item carries a longest content and the earliest
    published_at of the batch members with its item_id and, when there are
    at least two of them, exactly their source kinds and source ids; and
    under any permutation of the batch the item emitted for that key has the
    same content, the same date and the same merged sets. *)
Theorem deduplicate_merge_rule :
  (forall (a b : RawItem) (d : Z) (batch : list RawItem),
     item_id a = item_id b ->
     String.length (content a) = 200%nat -> String.length (content b) = 80%nat ->
     published_at a = clock d 9 0 -> published_at b = clock d 12 0 ->
     source_type a <> source_type b ->
     batch = [a; b] \/ batch = [b; a] ->
     exists m, deduplicate batch = [m] /\ content m = content a /\
       published_at m = clock d 9 0 /\
       source_type a ∈ merged_from_sources (raw_metadata m) /\
       source_type b ∈ merged_from_sources (raw_metadata m)) /\
  (forall (batch : list RawItem) (m : RawItem),
     In m (deduplicate batch) ->
     let g := group_in batch (item_id m) in
     (exists x, In x g /\ content x = content m) /\
     (forall x, In x g ->
        (String.length (content x) <= String.length (content m))%nat) /\
     (exists x, In x g /\ published_at x = published_at m) /\
     (forall x, In x g -> published_at m <= published_at x) /\
     ((2 <= length g)%nat ->
        (forall s, s ∈ merged_from_sources (raw_metadata m) <->
                   exists x, In x g /\ source_type x = s) /\
        (forall s, s ∈ merged_from_ids (raw_metadata m) <->
                   exists x, In x g /\ source_id x = s))) /\
  (forall (batch batch' : list RawItem) (m : RawItem),
     Permutation batch batch' -> In m (deduplicate batch) ->
     exists m', In m' (deduplicate batch') /\ item_id m' = item_id m /\
       content m' = content m /\
       published_at m' = published_at m /\
       merged_from_sources (raw_metadata m') = merged_from_sources (raw_metadata m) /\
       merged_from_ids (raw_metadata m') = merged_from_ids (raw_metadata m)).
Proof.
  split; [|split].
  - intros a b d batch. apply pair_scenario.
  - intros batch m. apply merged_item_fields.
  - intros batch batch' m. apply merge_order_independent.
Qed.

End Deduplicate.

(** ** Strings and numbers *)

Section Text.

Lemma append_nonempty_r (a b : string) : b <> "" -> a +:+ b <> "".
Proof. intros H. destruct a; simpl; [exact H|discriminate]. Qed.

Lemma append_s_not_dash (a : string) : a +:+ "s" <> "-".
Proof.
  destruct a as [|c a]; simpl; [discriminate|].
  intros H. injection H as _ H. destruct a; discriminate.
Qed.

Lemma append_m_not_dash (a b : string) : a +:+ "m " +:+ b +:+ "s" <> "-".
Proof.
  destruct a as [|c a]; simpl; [discriminate|].
  intros H. injection H as _ H. destruct a; discriminate.
Qed.

(** Plain integers print in decimal. *)
Lemma plain_integer_of_Z (z : Z) :
  Z.abs z < 10 ^ 21 -> Js.plain_integer (inject_Z z) = true.
Proof.
  intros H. unfold Js.plain_integer. rewrite Qfloor_Z.
  rewrite Qeq_bool_refl. simpl. now apply Z.ltb_lt.
Qed.

Lemma Number_toString_of_Z e (z : Z) :
  Z.abs z < 10 ^ 21 -> Js.Number_toString e (Js.of_Z z) = pretty z.
Proof.
  intros H. unfold Js.Number_toString, Js.of_Z.
  now rewrite plain_integer_of_Z, Qfloor_Z.
Qed.

End Text.

(** ** What fetchJson resolves with *)

Section Fetching.
Import Fetch.

Lemma fetchJson_resolves T
    (fetch : string -> option RequestInit -> Promise (Response T)) url options (v : T) :
  Admin.fetchJson fetch url options = Fulfilled v <->
  exists response,
    fetch url options = Fulfilled response /\ ok response = true /\
    json response = Fulfilled v.
Proof.
  unfold Admin.fetchJson. destruct (fetch url options) as [response|err].
  - destruct (ok response) eqn:E; simpl.
    + split; [intros H; exists response; auto|]. intros (r & [= <-] & _ & H). exact H.
    + split; [discriminate|]. intros (r & [= <-] & H & _). congruence.
  - split; [discriminate|]. intros (r & H & _). discriminate H.
Qed.

Lemma Number_toString_safe e (z : Z) :
  Z.abs z < 2 ^ 53 -> Js.Number_toString e (Js.of_Z z) = pretty z.
Proof.
  intros H. apply Number_toString_of_Z.
  assert (2 ^ 53 < 10 ^ 21) by reflexivity. lia.
Qed.

End Fetching.

(** ** The admin client *)

Section AdminClient.
Import Fetch Admin.





(** formatDuration of RunsTable.tsx. *)
Lemma lt_sixty (q : Q) : Js.lt (Js.Finite q) (Js.of_Z 60) = true <-> (q < 60)%Q.
Proof.
  unfold Js.lt, Js.of_Z. rewrite negb_true_iff, <- not_true_iff_false, Qle_bool_iff.
  split; [apply Qnot_le_lt|apply Qlt_not_le].
Qed.

Lemma truncate_nonneg (q : Q) : (0 <= q)%Q -> Js.truncate q = Qfloor q.
Proof.
  intros H. unfold Js.truncate. apply Qle_bool_iff in H. now rewrite H.
Qed.

Lemma div_sixty_nonneg (q : Q) : (60 <= q)%Q -> (0 <= q / inject_Z 60)%Q.
Proof.
  intros H. apply Qle_shift_div_l; [reflexivity|].
  rewrite Qmult_0_l. eapply Qle_trans; [|exact H]. discriminate.
Qed.

Lemma sixty_times_quotient (q : Q) : (inject_Z 60 * (q / inject_Z 60) == q)%Q.
Proof. field. Qed.

Lemma remainder_bounds (q : Q) :
  (0 <= q - inject_Z 60 * inject_Z (Qfloor (q / inject_Z 60)))%Q /\
  (q - inject_Z 60 * inject_Z (Qfloor (q / inject_Z 60)) < 60)%Q.
Proof.
  pose proof (Qfloor_le (q / inject_Z 60)) as Hl.
  pose proof (Qlt_floor (q / inject_Z 60)) as Hu.
  pose proof (sixty_times_quotient q) as Hq.
  rewrite inject_Z_plus in Hu.
  set (x := (q / inject_Z 60)%Q) in *.
  set (f := inject_Z (Qfloor x)) in *.
  change (inject_Z 60) with 60%Q in *. change (inject_Z 1) with 1%Q in *.
  split; lra.
Qed.

Lemma rounded_remainder_bounds (q : Q) :
  0 <= Qfloor (q - inject_Z 60 * inject_Z (Qfloor (q / inject_Z 60)) + (1 # 2)) <= 60.
Proof.
  destruct (remainder_bounds q) as [Hl Hu].
  set (r := (q - inject_Z 60 * inject_Z (Qfloor (q / inject_Z 60)))%Q) in *.
  split.
  - change 0 with (Qfloor 0). apply Qfloor_resp_le. lra.
  - change 60 with (Qfloor (121 # 2)). apply Qfloor_resp_le. lra.
Qed.

Lemma quotient_floor_nonneg (q : Q) : (60 <= q)%Q -> 0 <= Qfloor (q / inject_Z 60).
Proof.
  intros H. change 0 with (Qfloor 0). apply Qfloor_resp_le.
  pose proof (sixty_times_quotient q) as Hq.
  set (x := (q / inject_Z 60)%Q) in *. change (inject_Z 60) with 60%Q in *. lra.
Qed.

Lemma quotient_floor_safe (q : Q) (b : Z) :
  (60 <= q)%Q -> (q < inject_Z b)%Q -> Qfloor (q / inject_Z 60) < b.
Proof.
  intros H Hb. rewrite Zlt_Qlt.
  pose proof (Qfloor_le (q / inject_Z 60)) as Hl.
  pose proof (sixty_times_quotient q) as Hq.
  set (x := (q / inject_Z 60)%Q) in *. change (inject_Z 60) with 60%Q in *.
  set (f := inject_Z (Qfloor x)) in *. set (c := inject_Z b) in *. lra.
Qed.

(** C10: [formatDuration] on [number | null].  It returns "-" exactly for
    null.  For a number below 60 it returns Math.round of it followed by "s":
    the integer floor(q + 1/2) in decimal.  For a number of at least 60 it
    returns Math.floor(seconds / 60), "m ", Math.round(seconds % 60) and "s":
    the integers floor(q / 60) and floor(q - 60 * floor(q / 60) + 1/2) in
    decimal, the latter between 0 and 60.  The finite numbers are those below
    2^53 in size, where the engine's quotient and digits are exact; the
    infinities and NaN give "-Infinitys", "Infinitym NaNs" and "NaNm NaNs". *)
Theorem formatDuration_cases (e : Q -> string) :
  (forall seconds, formatDuration e seconds = "-" <-> seconds = None) /\
  (forall q, (q < 60)%Q -> Z.abs (Qfloor (q + (1 # 2))) < 2 ^ 53 ->
     formatDuration e (Some (Js.Finite q)) = pretty (Qfloor (q + (1 # 2))) +:+ "s") /\
  (forall q, (60 <= q)%Q -> (q < inject_Z (2 ^ 53))%Q ->
     let mins := Qfloor (q / inject_Z 60) in
     let secs := Qfloor (q - inject_Z 60 * inject_Z mins + (1 # 2)) in
     0 <= secs <= 60 /\
     formatDuration e (Some (Js.Finite q)) =
     pretty mins +:+ "m " +:+ pretty secs +:+ "s") /\
  formatDuration e (Some (Js.Infinity true)) = "-Infinitys" /\
  formatDuration e (Some (Js.Infinity false)) = "Infinitym NaNs" /\
  formatDuration e (Some Js.NaN) = "NaNm NaNs".
Proof.
  split; [|split; [|split; [|split; [|split]]]].
  - intros [x|]; split; try discriminate; try reflexivity.
    intros H. exfalso. revert H. unfold formatDuration.
    destruct (Js.lt x (Js.of_Z 60)); [apply append_s_not_dash|apply append_m_not_dash].
  - intros q H Hr. unfold formatDuration. apply lt_sixty in H. rewrite H.
    unfold Js.Math_round. now rewrite Number_toString_safe.
  - intros q H Hm mins secs.
    pose proof (rounded_remainder_bounds q) as Hs. fold mins in Hs. fold secs in Hs.
    split; [exact Hs|]. unfold formatDuration.
    assert (L : Js.lt (Js.Finite q) (Js.of_Z 60) = false).
    { apply not_true_iff_false. rewrite lt_sixty. now apply Qle_not_lt. }
    rewrite L. unfold Js.div_by, Js.rem_by, Js.Math_floor, Js.Math_round.
    rewrite truncate_nonneg by now apply div_sixty_nonneg.
    change (Z.pos 60) with 60. fold mins. fold secs.
    pose proof (quotient_floor_nonneg q H) as Hn. fold mins in Hn.
    pose proof (quotient_floor_safe q (2 ^ 53) H Hm) as Hu. fold mins in Hu.
    assert (60 < 2 ^ 53) by reflexivity.
    rewrite !Number_toString_safe by lia. reflexivity.
  - reflexivity.
  - reflexivity.
  - reflexivity.
Qed.

End AdminClient.

(** ** Well-formed strings *)

Section Unicode.

Lemma in_range_iff lo hi c :
  Js.in_range lo hi c = true <-> (lo <= N_of_ascii c <= hi)%N.
Proof.
  unfold Js.in_range. rewrite andb_true_iff, !N.leb_le. reflexivity.
Qed.

Lemma in_range_false lo hi c :
  Js.in_range lo hi c = false <-> (N_of_ascii c < lo \/ hi < N_of_ascii c)%N.
Proof.
  unfold Js.in_range. rewrite andb_false_iff, !N.leb_gt. reflexivity.
Qed.

Lemma USVString_other a s :
  Js.in_range 237 237 a = false -> Js.USVString (String a s) = String a (Js.USVString s).
Proof.
  intros H. destruct s as [|b [|c s]]; try reflexivity.
  cbn [Js.USVString]. unfold Js.lone_surrogate. now rewrite H.
Qed.

Lemma USVString_second a b s :
  Js.in_range 160 191 b = false ->
  Js.USVString (String a (String b s)) = String a (Js.USVString (String b s)).
Proof.
  intros H. destruct s as [|c s]; try reflexivity.
  change (Js.USVString (String a (String b (String c s))))
    with (if Js.lone_surrogate a b c then Js.replacement +:+ Js.USVString s
          else String a (Js.USVString (String b (String c s)))).
  unfold Js.lone_surrogate. now rewrite H, andb_false_r.
Qed.

Ltac N_ranges :=
  repeat match goal with
  | H : Js.in_range _ _ _ = true |- _ => apply in_range_iff in H
  | H : Js.in_range _ _ _ = false |- _ => apply in_range_false in H
  | |- Js.in_range _ _ _ = true => apply in_range_iff
  | |- Js.in_range _ _ _ = false => apply in_range_false
  end; try lia.

Lemma second_of_three_not_surrogate a b :
  Js.second_of_three a b = true ->
  Js.in_range 237 237 a = false \/ Js.in_range 160 191 b = false.
Proof.
  unfold Js.second_of_three.
  destruct (Js.in_range 224 224 a) eqn:E1.
  - intros _. left. N_ranges.
  - destruct (Js.in_range 237 237 a) eqn:E2; [|now left].
    intros H. right. N_ranges.
Qed.

Lemma second_is_continuation3 a b :
  Js.second_of_three a b = true -> Js.in_range 128 191 b = true.
Proof.
  unfold Js.second_of_three.
  destruct (Js.in_range 224 224 a); [|destruct (Js.in_range 237 237 a)];
    intros H; N_ranges.
Qed.

Lemma second_is_continuation4 a b :
  Js.second_of_four a b = true -> Js.in_range 128 191 b = true.
Proof.
  unfold Js.second_of_four.
  destruct (Js.in_range 240 240 a); [|destruct (Js.in_range 244 244 a)];
    intros H; N_ranges.
Qed.

Lemma continuation_not_lead b :
  Js.in_range 128 191 b = true -> Js.in_range 237 237 b = false.
Proof. intros H. N_ranges. Qed.

(** A well-formed string is decoded to itself and is its own scalar value
    string. *)
Lemma wellformed_fixed (n : nat) : forall s,
  (String.length s <= n)%nat -> Js.isWellFormed s = true ->
  Js.utf8_decode s = s /\ Js.USVString s = s.
Proof.
  induction n as [|n IH]; intros s Hn Hw.
  - destruct s; [split; reflexivity|simpl in Hn; lia].
  - destruct s as [|a s1]; [split; reflexivity|].
    cbn [Js.isWellFormed] in Hw. cbn [Js.utf8_decode]. simpl in Hn.
    destruct (Js.in_range 0 127 a) eqn:R1.
    { destruct (IH s1) as [D U]; [lia|exact Hw|]. split; [now rewrite D|].
      rewrite USVString_other by N_ranges. now rewrite U. }
    destruct (Js.in_range 194 223 a) eqn:R2.
    { destruct s1 as [|b s2]; [discriminate|].
      apply andb_true_iff in Hw as [Hb Hw]. rewrite Hb. simpl in Hn.
      destruct (IH s2) as [D U]; [lia|exact Hw|]. split; [now rewrite D|].
      rewrite USVString_other by N_ranges.
      rewrite USVString_other by N_ranges. now rewrite U. }
    destruct (Js.in_range 224 239 a) eqn:R3.
    { destruct s1 as [|b [|c s3]]; try discriminate.
      apply andb_true_iff in Hw as [Hw Hrest]. apply andb_true_iff in Hw as [Hb Hc].
      rewrite Hb, Hc. simpl in Hn.
      destruct (IH s3) as [D U]; [lia|exact Hrest|]. split; [now rewrite D|].
      pose proof (second_is_continuation3 _ _ Hb) as Hb'.
      assert (E : Js.USVString (String a (String b (String c s3))) =
                  String a (Js.USVString (String b (String c s3)))).
      { destruct (second_of_three_not_surrogate _ _ Hb) as [H|H].
        - now apply USVString_other.
        - now apply USVString_second. }
      rewrite E. rewrite USVString_other by now apply continuation_not_lead.
      rewrite USVString_other by now apply continuation_not_lead. now rewrite U. }
    destruct (Js.in_range 240 244 a) eqn:R4; [|discriminate].
    destruct s1 as [|b [|c [|d s4]]]; try discriminate.
    apply andb_true_iff in Hw as [Hw Hrest]. apply andb_true_iff in Hw as [Hw Hd].
    apply andb_true_iff in Hw as [Hb Hc].
    rewrite Hb, Hc, Hd. simpl in Hn.
    destruct (IH s4) as [D U]; [lia|exact Hrest|]. split; [now rewrite D|].
    pose proof (second_is_continuation4 _ _ Hb) as Hb'.
    rewrite USVString_other by N_ranges.
    rewrite USVString_other by now apply continuation_not_lead.
    rewrite USVString_other by now apply continuation_not_lead.
    rewrite USVString_other by now apply continuation_not_lead. now rewrite U.
Qed.

Lemma utf8_decode_wellformed s : Js.isWellFormed s = true -> Js.utf8_decode s = s.
Proof. intros H. now apply (wellformed_fixed (String.length s) s). Qed.

Lemma USVString_wellformed s : Js.isWellFormed s = true -> Js.USVString s = s.
Proof. intros H. now apply (wellformed_fixed (String.length s) s). Qed.

Lemma read_back_wellformed s : Js.isWellFormed s = true -> Props.read_back s = s.
Proof.
  intros H. unfold Props.read_back.
  now rewrite (USVString_wellformed s H), (utf8_decode_wellformed s H).
Qed.

End Unicode.

(** ** The query string that URLSearchParams writes *)

Section Query.
Import JsLib QueryProps.

Lemma urldecode_char (c : ascii) (rest : string) :
  urldecode (Js.urlencode_char c +:+ rest) = String c (urldecode rest).
Proof. destruct c as [[] [] [] [] [] [] [] []]; reflexivity. Qed.

Lemma urldecode_urlencode (s : string) : urldecode (Js.urlencode s) = s.
Proof.
  induction s as [|c s IH]; [reflexivity|].
  cbn [Js.urlencode]. now rewrite urldecode_char, IH.
Qed.

Lemma occurs_app c a b : occurs c (a +:+ b) = occurs c a || occurs c b.
Proof.
  induction a as [|x a IH]; [reflexivity|]. simpl. now rewrite IH, orb_assoc.
Qed.

Lemma urlencode_char_no_separator (c : ascii) :
  occurs "&" (Js.urlencode_char c) = false /\ occurs "=" (Js.urlencode_char c) = false.
Proof. destruct c as [[] [] [] [] [] [] [] []]; split; reflexivity. Qed.

Lemma urlencode_no_separator (s : string) :
  occurs "&" (Js.urlencode s) = false /\ occurs "=" (Js.urlencode s) = false.
Proof.
  induction s as [|c s [IH1 IH2]]; [split; reflexivity|].
  cbn [Js.urlencode]. rewrite !occurs_app, IH1, IH2.
  destruct (urlencode_char_no_separator c) as [-> ->]. split; reflexivity.
Qed.

Lemma split_first_at sep a b :
  occurs sep a = false -> split_first sep (a +:+ String sep b) = (a, b).
Proof.
  induction a as [|x a IH]; simpl; intros H.
  - now rewrite Ascii.eqb_refl.
  - apply orb_false_iff in H as [H1 H2]. rewrite H1, (IH H2). reflexivity.
Qed.

Lemma split_on_free sep a : occurs sep a = false -> split_on sep a = [a].
Proof.
  induction a as [|x a IH]; simpl; intros H; [reflexivity|].
  apply orb_false_iff in H as [H1 H2]. now rewrite H1, (IH H2).
Qed.

Lemma split_on_at sep a b :
  occurs sep a = false -> split_on sep (a +:+ String sep b) = a :: split_on sep b.
Proof.
  induction a as [|x a IH]; simpl; intros H.
  - now rewrite Ascii.eqb_refl.
  - apply orb_false_iff in H as [H1 H2]. now rewrite H1, (IH H2).
Qed.

Lemma piece_no_ampersand kv : occurs "&" (piece kv) = false.
Proof.
  unfold piece. rewrite occurs_app. cbn [occurs].
  destruct (urlencode_no_separator kv.1) as [-> _].
  destruct (urlencode_no_separator kv.2) as [-> _]. reflexivity.
Qed.

Lemma piece_truthy kv : Js.truthy_string (piece kv) = true.
Proof. unfold piece. destruct (Js.urlencode kv.1); reflexivity. Qed.

Lemma piece_bytes kv :
  (urldecode (split_first "=" (piece kv)).1, urldecode (split_first "=" (piece kv)).2) = kv.
Proof.
  unfold piece. rewrite split_first_at by apply urlencode_no_separator.
  simpl. rewrite !urldecode_urlencode. now destruct kv.
Qed.

Lemma split_on_join (l : list (string * string)) :
  l <> [] -> split_on "&" (Js.join "&" (map piece l)) = map piece l.
Proof.
  induction l as [|kv l IH]; [congruence|]. intros _.
  destruct l as [|kv' l].
  - simpl. apply split_on_free, piece_no_ampersand.
  - change (Js.join "&" (map piece (kv :: kv' :: l)))
      with (piece kv +:+ String "&" (Js.join "&" (map piece (kv' :: l)))).
    rewrite split_on_at by apply piece_no_ampersand.
    rewrite IH by congruence. reflexivity.
Qed.

(** The bytes that the parser reads are the bytes that were written. *)
Lemma parse_bytes_toString (sp : Js.URLSearchParams) :
  parse_bytes (Js.URLSearchParams_toString sp) = sp.
Proof.
  unfold parse_bytes, Js.URLSearchParams_toString.
  destruct sp as [|kv sp]; [reflexivity|].
  change (map (λ kv0 : string * string, Js.urlencode kv0.1 +:+ "=" +:+ Js.urlencode kv0.2))
    with (map piece).
  rewrite split_on_join by congruence.
  induction (kv :: sp) as [|x l IH]; [reflexivity|].
  cbn [map List.filter]. rewrite piece_truthy. cbn [map].
  rewrite piece_bytes. f_equal. exact IH.
Qed.

Lemma parse_toString (sp : Js.URLSearchParams) :
  URLSearchParams_parse (Js.URLSearchParams_toString sp) = map decoded sp.
Proof. unfold URLSearchParams_parse. now rewrite parse_bytes_toString. Qed.

Lemma toString_inj (sp sp' : Js.URLSearchParams) :
  Js.URLSearchParams_toString sp = Js.URLSearchParams_toString sp' -> sp = sp'.
Proof.
  intros H. rewrite <- (parse_bytes_toString sp), <- (parse_bytes_toString sp').
  now rewrite H.
Qed.
End Query.

(** ** The frontend client *)

Section FrontendClient.
Import Fetch JsLib Frontend Props.

(** [fetchJson] of both clients. *)
Lemma Admin_fetchJson_cases T
    (fetch : string -> option RequestInit -> Promise (Response T))
    url options response :
  fetch url options = Fulfilled response ->
  (ok response = true -> Admin.fetchJson fetch url options = json response) /\
  (forall v, Admin.fetchJson fetch url options = Fulfilled v ->
     ok response = true /\ json response = Fulfilled v) /\
  (ok response = false ->
     exists err, Admin.fetchJson fetch url options = Rejected (Api err) /\
       ApiError.status err = status response /\ ApiError.name err = "ApiError" /\
       ApiError.message err = "API request failed: " +:+ statusText response).
Proof.
  intros H. unfold Admin.fetchJson. rewrite H.
  destruct (ok response); simpl.
  - split; [reflexivity|]. split; [auto|discriminate].
  - split; [discriminate|]. split; [discriminate|].
    intros _. eexists. repeat split.
Qed.

(** C8, as amended: for every HTTP response, [fetchJson] of the admin client
    and of the frontend client (the same function on a call without
    options) settles as [response.json()] does when [response.ok] is true -
    so it resolves, with the parsed JSON body, only for an ok response whose
    body parses - and otherwise throws an ApiError whose status is the
    response's HTTP status code and whose name is 'ApiError'. *)
Theorem fetchJson_settles T
    (fetch : string -> option RequestInit -> Promise (Response T))
    (url : string) (options : option RequestInit) (response : Response T) :
  fetch url options = Fulfilled response ->
  Admin.fetchJson fetch url None = Frontend.fetchJson fetch url /\
  (ok response = true -> Admin.fetchJson fetch url options = json response) /\
  (forall v, Admin.fetchJson fetch url options = Fulfilled v ->
     ok response = true /\ json response = Fulfilled v) /\
  (ok response = false ->
     exists err, Admin.fetchJson fetch url options = Rejected (Api err) /\
       ApiError.status err = status response /\ ApiError.name err = "ApiError" /\
       ApiError.message err = "API request failed: " +:+ statusText response).
Proof.
  intros H. split; [reflexivity|]. now apply Admin_fetchJson_cases.
Qed.

(** C8, as stated, fails: a 204 response is ok, but its empty body is not
    JSON, and [fetchJson] rejects with the parser's error. *)
Lemma fetchJson_ok_body_not_json :
  ~ (forall T (fetch : string -> option RequestInit -> Promise (Response T))
       url response,
       fetch url None = Fulfilled response ->
       (ok response = true <-> exists v, Frontend.fetchJson fetch url = Fulfilled v) /\
       (ok response = false ->
          exists err, Frontend.fetchJson fetch url = Rejected (Api err) /\
            ApiError.status err = status response /\ ApiError.name err = "ApiError")).
Proof.
  intros H.
  destruct (H Js.Json (Samples.respond Samples.no_content) "/api/items"
              Samples.no_content eq_refl) as [[H1 _] _].
  destruct (H1 eq_refl) as [v Hv]. discriminate Hv.
Qed.

(** [fetchItems]: the search parameters and the URL. *)
Lemma searchParams_normal_form e p :
  fetchItems_searchParams e p = sent_limit e p ++ sent_topic p ++ sent_articleType p.
Proof.
  destruct p as [[l|] [t|] [a|] r];
    unfold fetchItems_searchParams, sent_limit, sent_topic, sent_articleType;
    cbn [limit topic articleType];
    repeat match goal with |- context [if ?b then _ else _] => destruct b end;
    reflexivity.
Qed.

Lemma truthy_string_iff s : Js.truthy_string s = true <-> s <> "".
Proof.
  unfold Js.truthy_string. destruct (String.eqb_spec s ""); simpl; split; congruence.
Qed.

Lemma join_nonempty sep x l : x <> "" -> Js.join sep (x :: l) <> "".
Proof.
  intros H. destruct l; simpl; [exact H|].
  destruct x; simpl; [congruence|discriminate].
Qed.

Lemma toString_empty_iff (sp : Js.URLSearchParams) :
  Js.URLSearchParams_toString sp = "" <-> sp = [].
Proof.
  split; [|now intros ->].
  destruct sp as [|[k v] sp]; [reflexivity|].
  intros H. exfalso. revert H. unfold Js.URLSearchParams_toString. cbn [map].
  apply join_nonempty. apply append_nonempty_r. discriminate.
Qed.

Lemma fetchItems_url_shape e p :
  fetchItems_url e p =
  "/api/items" +:+
  match fetchItems_searchParams e p with
  | [] => ""
  | sp => "?" +:+ Js.URLSearchParams_toString sp
  end.
Proof.
  unfold fetchItems_url.
  destruct (fetchItems_searchParams e p) as [|kv sp] eqn:E; [reflexivity|].
  destruct (Js.truthy_string (Js.URLSearchParams_toString (kv :: sp))) eqn:T; [reflexivity|].
  exfalso. apply not_true_iff_false in T. apply T, truthy_string_iff.
  intros H. now apply toString_empty_iff in H.
Qed.

Lemma url_path e p : path_of (fetchItems_url e p) = "/api/items".
Proof.
  rewrite fetchItems_url_shape. now destruct (fetchItems_searchParams e p).
Qed.

Lemma url_query e p :
  query_of (fetchItems_url e p) = Js.URLSearchParams_toString (fetchItems_searchParams e p).
Proof.
  rewrite fetchItems_url_shape. now destruct (fetchItems_searchParams e p).
Qed.

Lemma parse_query_of_url e p :
  URLSearchParams_parse (query_of (fetchItems_url e p)) =
  map decoded (fetchItems_searchParams e p).
Proof. now rewrite url_query, parse_toString. Qed.

Lemma sent_topic_pair p k v :
  In (k, v) (map decoded (sent_topic p)) <->
  k = "topic" /\ exists t, topic p = Some t /\ t <> "" /\ v = read_back t.
Proof.
  unfold sent_topic. destruct (topic p) as [t|]; [destruct (Js.truthy_string t) eqn:E|];
    simpl; split.
  - intros [[= <- <-]|[]]. apply truthy_string_iff in E. eauto.
  - intros (-> & t' & [= <-] & _ & ->). now left.
  - intros [].
  - intros (_ & t' & [= <-] & H & _). apply truthy_string_iff in H. congruence.
  - intros [].
  - intros (_ & t' & [=] & _).
Qed.

Lemma sent_articleType_pair p k v :
  In (k, v) (map decoded (sent_articleType p)) <->
  k = "article_type" /\ exists a, articleType p = Some a /\ a <> "" /\ v = read_back a.
Proof.
  unfold sent_articleType.
  destruct (articleType p) as [t|]; [destruct (Js.truthy_string t) eqn:E|];
    simpl; split.
  - intros [[= <- <-]|[]]. apply truthy_string_iff in E. eauto.
  - intros (-> & t' & [= <-] & _ & ->). now left.
  - intros [].
  - intros (_ & t' & [= <-] & H & _). apply truthy_string_iff in H. congruence.
  - intros [].
  - intros (_ & t' & [=] & _).
Qed.

Lemma sent_limit_pair e p k v :
  In (k, v) (map decoded (sent_limit e p)) <->
  k = "limit" /\ exists l, limit p = Some l /\ Js.truthy_number l = true /\
                           v = read_back (Js.Number_toString e l).
Proof.
  unfold sent_limit. destruct (limit p) as [l|]; [destruct (Js.truthy_number l) eqn:E|];
    simpl; split.
  - intros [[= <- <-]|[]]. eauto.
  - intros (-> & l' & [= <-] & _ & ->). now left.
  - intros [].
  - intros (_ & l' & [= <-] & H & _). congruence.
  - intros [].
  - intros (_ & l' & [=] & _).
Qed.

Lemma parsed_pair e p k v :
  In (k, v) (URLSearchParams_parse (query_of (fetchItems_url e p))) <->
  (k = "limit" /\ exists l, limit p = Some l /\ Js.truthy_number l = true /\
                            v = read_back (Js.Number_toString e l)) \/
  (k = "topic" /\ exists t, topic p = Some t /\ t <> "" /\ v = read_back t) \/
  (k = "article_type" /\ exists a, articleType p = Some a /\ a <> "" /\ v = read_back a).
Proof.
  rewrite parse_query_of_url, searchParams_normal_form, !map_app, !in_app_iff.
  now rewrite sent_limit_pair, sent_topic_pair, sent_articleType_pair.
Qed.

Lemma parsed_name e p k :
  In k (URLSearchParams_parse (query_of (fetchItems_url e p))).*1 <->
  (k = "limit" /\ exists l, limit p = Some l /\ Js.truthy_number l = true) \/
  (k = "topic" /\ exists t, topic p = Some t /\ t <> "") \/
  (k = "article_type" /\ exists a, articleType p = Some a /\ a <> "").
Proof.
  rewrite <- list_elem_of_In, list_elem_of_fmap. split.
  - intros ([k' v] & -> & H). apply list_elem_of_In, parsed_pair in H.
    simpl. destruct H as [(-> & l & ? & ? & _)|[(-> & t & ? & ? & _)|(-> & a & ? & ? & _)]];
      eauto 8.
  - intros [(-> & l & ? & ?)|[(-> & t & ? & ?)|(-> & a & ? & ?)]].
    + exists ("limit", read_back (Js.Number_toString e l)). split; [reflexivity|].
      apply list_elem_of_In, parsed_pair. eauto 10.
    + exists ("topic", read_back t). split; [reflexivity|].
      apply list_elem_of_In, parsed_pair. eauto 10.
    + exists ("article_type", read_back a). split; [reflexivity|].
      apply list_elem_of_In, parsed_pair. eauto 10.
Qed.

Lemma searchParams_empty_iff e p :
  fetchItems_searchParams e p = [] <->
  Js.truthy Js.truthy_number (limit p) = false /\
  Js.truthy Js.truthy_string (topic p) = false /\
  Js.truthy Js.truthy_string (articleType p) = false.
Proof.
  rewrite searchParams_normal_form. unfold sent_limit, sent_topic, sent_articleType.
  destruct (limit p) as [l|], (topic p) as [t|], (articleType p) as [a|]; simpl;
    repeat match goal with |- context [if ?b then _ else _] => destruct b end;
    simpl; split; try discriminate; try tauto; intros (? & ? & ?); discriminate.
Qed.

Lemma url_bare_iff e p :
  fetchItems_url e p = "/api/items" <-> fetchItems_searchParams e p = [].
Proof.
  rewrite fetchItems_url_shape.
  destruct (fetchItems_searchParams e p) as [|kv sp]; [tauto|].
  split; [|discriminate]. simpl. intros H. discriminate H.
Qed.

(** C9: for every params object, [fetchItems] requests the path /api/items
    with a query string in which the form-urlencoded parser finds a limit
    parameter exactly when params.limit is a truthy number, a topic parameter
    exactly when params.topic is a non-empty string, and an article_type
    parameter exactly when params.articleType is a non-empty string.  The
    request is [fetch] of that URL, without options, and nothing else of
    [fetch] matters.  The URL is /api/items alone, without '?', exactly when
    none of the three is truthy, so for the empty params object and when
    limit is 0. *)
Theorem fetchItems_url_parameters (e : Q -> string) (params : FetchItemsParams) :
  let url := fetchItems_url e params in
  let sent := URLSearchParams_parse (query_of url) in
  path_of url = "/api/items" /\
  (In "limit" sent.*1 <->
     exists l, limit params = Some l /\ Js.truthy_number l = true) /\
  (In "topic" sent.*1 <-> exists t, topic params = Some t /\ t <> "") /\
  (In "article_type" sent.*1 <->
     exists a, articleType params = Some a /\ a <> "") /\
  (forall fetch fetch',
     fetch' url None = fetch url None ->
     fetchItems e fetch' params = fetchItems e fetch params) /\
  (forall fetch,
     fetchItems e fetch params =
     match fetch url None with
     | Fulfilled reply =>
         if ok reply then json reply
         else Rejected (Api (ApiError.new
                               ("API request failed: " +:+ statusText reply)
                               (status reply)))
     | Rejected err => Rejected err
     end) /\
  (url = "/api/items" <->
     Js.truthy Js.truthy_number (limit params) = false /\
     Js.truthy Js.truthy_string (topic params) = false /\
     Js.truthy Js.truthy_string (articleType params) = false) /\
  fetchItems_url e no_params = "/api/items" /\
  (forall r, fetchItems_url e
      {| limit := Some (Js.of_Z 0); topic := None; articleType := None;
         minRelevance := r |} = "/api/items").
Proof.
  intros url sent. subst url sent.
  rewrite !parsed_name.
  split; [|split; [|split; [|split; [|split; [|split; [|split; [|split]]]]]]].
  - apply url_path.
  - split; [intros [(_ & H)|[(? & _)|(? & _)]]; [exact H|discriminate..]|].
    intros H. left. auto.
  - split; [intros [(? & _)|[(_ & H)|(? & _)]]; [discriminate|exact H|discriminate]|].
    intros H. right. left. auto.
  - split; [intros [(? & _)|[(? & _)|(_ & H)]]; [discriminate..|exact H]|].
    intros H. right. right. auto.
  - intros fetch fetch' H. unfold fetchItems, Frontend.fetchJson. now rewrite H.
  - intros fetch. unfold fetchItems, Frontend.fetchJson.
    destruct (fetch _ _) as [reply|err]; [|reflexivity]. now destruct (ok reply).
  - rewrite url_bare_iff. apply searchParams_empty_iff.
  - reflexivity.
  - reflexivity.
Qed.

(** C4, as amended: the query operation returns paginated items filtered by
    topic and article type, shaped as {items[], count, total?}.  For every
    params object the requested URL carries the limit, the topic and the
    article type that are set, each under its own name and with its value as
    URLSearchParams reads it back (the string itself when it is well-formed),
    and no other parameter; there is no minimum-relevance parameter, and the
    URL does not depend on params.minRelevance.  What [fetchItems] resolves
    with is the body of the ok response to that request: an item list, a
    count and an optional total, of which the hook keeps the item list. *)
Theorem fetchItems_query_contract (e : Q -> string) (params : FetchItemsParams) :
  let url := fetchItems_url e params in
  let sent := URLSearchParams_parse (query_of url) in
  (forall l, limit params = Some l -> Js.truthy_number l = true ->
     In ("limit", read_back (Js.Number_toString e l)) sent) /\
  (forall t, topic params = Some t -> t <> "" ->
     In ("topic", read_back t) sent /\
     (Js.isWellFormed t = true -> In ("topic", t) sent)) /\
  (forall a, articleType params = Some a -> a <> "" ->
     In ("article_type", read_back a) sent /\
     (Js.isWellFormed a = true -> In ("article_type", a) sent)) /\
  (forall k v, In (k, v) sent -> In k ["limit"; "topic"; "article_type"]) /\
  (forall r, fetchItems_url e (with_minRelevance r params) = url) /\
  (forall fetch response,
     fetchItems e fetch params = Fulfilled response <->
     exists http, fetch url None = Fulfilled http /\ ok http = true /\
                  json http = Fulfilled response) /\
  (forall fetch response,
     fetchItems e fetch params = Fulfilled response ->
     loadItems e fetch params = inl (items response) /\
     exists (its : list NewsItem) (n : Js.Number) (tot : option Js.Number),
       response = {| items := its; count := n; total := tot |}).
Proof.
  intros url sent. subst url sent.
  split; [|split; [|split; [|split; [|split; [|split]]]]].
  - intros l H1 H2. apply parsed_pair. left. eauto 6.
  - intros t H1 H2.
    assert (H : In ("topic", read_back t)
                   (URLSearchParams_parse (query_of (fetchItems_url e params))))
      by (apply parsed_pair; right; left; eauto 6).
    split; [exact H|]. intros W. now rewrite (read_back_wellformed t W) in H.
  - intros a H1 H2.
    assert (H : In ("article_type", read_back a)
                   (URLSearchParams_parse (query_of (fetchItems_url e params))))
      by (apply parsed_pair; right; right; eauto 6).
    split; [exact H|]. intros W. now rewrite (read_back_wellformed a W) in H.
  - intros k v H. apply parsed_pair in H as [(-> & _)|[(-> & _)|(-> & _)]];
      simpl; auto.
  - intros r. reflexivity.
  - intros fetch response. apply fetchJson_resolves.
  - intros fetch [its n tot] H. split.
    + unfold loadItems. now rewrite H.
    + now exists its, n, tot.
Qed.

(** C4, as stated, fails: a params object with a minimum relevance is
    requested with no parameter for it - the query of the URL has no
    parameter besides limit, topic and article_type, here none at all. *)
Lemma fetchItems_drops_minRelevance :
  ~ (forall (e : Q -> string) (params : FetchItemsParams),
       let sent := URLSearchParams_parse (query_of (fetchItems_url e params)) in
       (forall t, topic params = Some t -> t <> "" -> In "topic" sent.*1) /\
       (forall a, articleType params = Some a -> a <> "" ->
          In "article_type" sent.*1) /\
       (forall r, minRelevance params = Some r ->
          exists k, In k sent.*1 /\
            k <> "limit" /\ k <> "topic" /\ k <> "article_type")).
Proof.
  intros H.
  destruct (H Samples.no_engine (with_minRelevance (Some Samples.half) no_params))
    as (_ & _ & H3).
  destruct (H3 Samples.half eq_refl) as (k & [] & _).
Qed.

End FrontendClient.

(** ** Summarize *)

Section Enricher.
Import Enrich.

Lemma validate_Some llm_result s :
  validate llm_result = Some s ->
  llm_result = Structured s /\ known_article_type (ArticleSummary.article_type s) = true.
Proof.
  destruct llm_result as [r|]; simpl; [|discriminate].
  destruct (known_article_type (ArticleSummary.article_type r)) eqn:E; [|discriminate].
  intros [= <-]. auto.
Qed.

Lemma call_with_retry_Some llm item tries : forall k s,
  call_with_retry llm item k tries = Some s ->
  exists j, (k <= j < k + tries)%nat /\ validate (llm item j) = Some s.
Proof.
  induction tries as [|tries IH]; intros k s; simpl; [discriminate|].
  destruct (validate (llm item k)) as [s'|] eqn:E.
  - intros [= <-]. exists k. split; [lia|exact E].
  - intros H. apply IH in H as (j & Hj & Hv). exists j. split; [lia|exact Hv].
Qed.

Lemma summarize_elem llm embed now items p :
  In p (summarize llm embed now items) ->
  exists item s j, In item items /\ (j < 3)%nat /\ llm item j = Structured s /\
    known_article_type (ArticleSummary.article_type s) = true /\
    p = to_processed embed now item s.
Proof.
  unfold summarize. rewrite <- list_elem_of_In, list_elem_of_omap.
  intros (item & Hin & H). unfold summarize_item in H.
  destruct (call_with_retry llm item 0 (S MAX_RETRIES)) as [s|] eqn:E; [|discriminate].
  injection H as <-.
  apply call_with_retry_Some in E as (j & Hj & Hv).
  apply validate_Some in Hv as [Hs Hk].
  exists item, s, j. rewrite <- list_elem_of_In. unfold MAX_RETRIES in Hj.
  repeat split; auto. lia.
Qed.

(** C6: every ProcessedItem that Summarize produces has article_type news or
    tutorial, and the article-type tables of the public interface
    (typeLabels of ArticleTypeFilter.tsx, articleTypeConfig of NewsCard.tsx)
    have exactly the keys news and tutorial. *)
Theorem article_type_news_or_tutorial
    (llm : Pipeline.RawItem -> nat -> ServiceResult)
    (embed : string -> option (list Q)) (now : Z) :
  (forall items p, In p (summarize llm embed now items) ->
     article_type p = "news" \/ article_type p = "tutorial") /\
  dom Frontend.typeLabels =@{gset string} {[ "news"; "tutorial" ]} /\
  dom Frontend.articleTypeConfig =@{gset string} {[ "news"; "tutorial" ]}.
Proof.
  split; [|split].
  - intros items p H.
    apply summarize_elem in H as (item & s & j & _ & _ & _ & Hk & ->). simpl.
    unfold known_article_type, ARTICLE_TYPES in Hk. apply bool_decide_eq_true in Hk.
    apply list_elem_of_In in Hk. simpl in Hk. destruct Hk as [<-|[<-|[]]]; auto.
  - unfold Frontend.typeLabels. rewrite dom_list_to_map_L. set_solver.
  - unfold Frontend.articleTypeConfig. rewrite dom_list_to_map_L. set_solver.
Qed.

(** C7: the topics of every ProcessedItem lie in the fixed enumeration LLMs,
    AI Agents, AI Safety, MLOps, Computer Vision, NLP, Open Source, Products,
    Research, Industry (also the keys of topicColors); a category outside it
    that the service returns is dropped, not passed through: the item is
    kept, with exactly the returned topics that are in the enumeration. *)
Theorem topics_within_categories
    (llm : Pipeline.RawItem -> nat -> ServiceResult)
    (embed : string -> option (list Q)) (now : Z) :
  (forall items p t, In p (summarize llm embed now items) -> In t (topics p) ->
     In t ["LLMs"; "AI Agents"; "AI Safety"; "MLOps"; "Computer Vision"; "NLP";
           "Open Source"; "Products"; "Research"; "Industry"]) /\
  (forall item s, llm item 0%nat = Structured s ->
     In (ArticleSummary.article_type s) ARTICLE_TYPES ->
     exists p, summarize llm embed now [item] = [p] /\
       forall t, In t (topics p) <->
                 In t (ArticleSummary.topics s) /\ In t TOPIC_CATEGORIES) /\
  dom Frontend.topicColors =@{gset string} list_to_set TOPIC_CATEGORIES.
Proof.
  split; [|split].
  - intros items p t H Ht.
    apply summarize_elem in H as (item & s & j & _ & _ & _ & _ & ->). simpl in Ht.
    apply filter_In in Ht as [_ Ht]. unfold known_topic in Ht.
    apply bool_decide_eq_true in Ht. now apply list_elem_of_In in Ht.
  - intros item s Hs Ht. exists (to_processed embed now item s). split.
    + unfold summarize, summarize_item. simpl. rewrite Hs. simpl.
      unfold known_article_type. rewrite bool_decide_eq_true_2; [reflexivity|].
      now apply list_elem_of_In.
    + intros t. simpl. rewrite filter_In. unfold known_topic.
      rewrite bool_decide_eq_true, list_elem_of_In. reflexivity.
  - unfold Frontend.topicColors. rewrite dom_list_to_map_L. reflexivity.
Qed.

End Enricher.

(* ===================================================================== *)
(** * The statements at the sample data *)
(* ===================================================================== *)

Section Instances.
Import Samples.

Lemma deduplicate_merge_rule_witness :
  (exists m, Pipeline.deduplicate [gmail_item; rss_item] = [m] /\
     Pipeline.content m = Pipeline.content rss_item /\
     Pipeline.published_at m = Pipeline.clock 20000 9 0 /\
     "rss" ∈ Pipeline.merged_from_sources (Pipeline.raw_metadata m) /\
     "gmail" ∈ Pipeline.merged_from_sources (Pipeline.raw_metadata m)) /\
  (Pipeline.published_at (Pipeline.merge_group (rss_item, [gmail_item]))
     <= Pipeline.published_at gmail_item /\
   "news@example.org" ∈
     Pipeline.merged_from_ids
       (Pipeline.raw_metadata (Pipeline.merge_group (rss_item, [gmail_item])))) /\
  (exists m', In m' (Pipeline.deduplicate [tied_b; tied_a]) /\
     Pipeline.content m' =
     Pipeline.content (Pipeline.merge_group (tied_a, [tied_b]))).
Proof.
  destruct deduplicate_merge_rule as (Scenario & Rule & Order).
  assert (Hm : In (Pipeline.merge_group (rss_item, [gmail_item]))
                  (Pipeline.deduplicate [rss_item; gmail_item]))
    by (left; reflexivity).
  split; [|split].
  - apply (Scenario rss_item gmail_item 20000 [gmail_item; rss_item]);
      [reflexivity|reflexivity|reflexivity|reflexivity|reflexivity|discriminate|].
    right. reflexivity.
  - destruct (Rule [rss_item; gmail_item] _ Hm) as (_ & _ & _ & Hmin & Hsets).
    split.
    + apply Hmin. right. left. reflexivity.
    + apply Hsets; [simpl; lia|].
      exists gmail_item. split; [right; left|]; reflexivity.
  - destruct (Order [tied_a; tied_b] [tied_b; tied_a]
                (Pipeline.merge_group (tied_a, [tied_b]))
                (perm_swap tied_b tied_a []))
      as (m' & Hin & _ & Hcontent & _).
    + left. reflexivity.
    + exists m'. split; [exact Hin|exact Hcontent].
Defined.



Lemma formatDuration_cases_witness :
  Admin.formatDuration no_engine None = "-" /\
  Admin.formatDuration no_engine (Some (Js.Finite (119 # 2))) =
    pretty (Qfloor ((119 # 2) + (1 # 2))) +:+ "s" /\
  Admin.formatDuration no_engine (Some (Js.Finite (1197 # 10))) =
    pretty (Qfloor ((1197 # 10) / inject_Z 60)) +:+ "m " +:+
    pretty (Qfloor ((1197 # 10)
                    - inject_Z 60 * inject_Z (Qfloor ((1197 # 10) / inject_Z 60))
                    + (1 # 2))) +:+ "s".
Proof.
  destruct (formatDuration_cases no_engine) as (Dash & Seconds & Minutes & _).
  split; [|split].
  - apply Dash. reflexivity.
  - apply Seconds; reflexivity.
  - apply Minutes.
    + unfold Qle. simpl. lia.
    + reflexivity.
Defined.

Lemma fetchJson_settles_witness :
  (exists err,
     Admin.fetchJson (respond not_found) "/api/items" None = Fetch.Rejected (Fetch.Api err) /\
     ApiError.status err = 404 /\ ApiError.name err = "ApiError") /\
  Admin.fetchJson (respond run_started_response) "/api/run" None =
    Fetch.Fulfilled run_started /\
  Fetch.ok run_started_response = true.
Proof.
  split; [|split].
  - destruct (fetchJson_settles Js.Json (respond not_found) "/api/items" None
                not_found eq_refl) as (_ & _ & _ & Hthrow).
    destruct (Hthrow eq_refl) as (err & H1 & H2 & H3 & _).
    exists err. repeat split; assumption.
  - destruct (fetchJson_settles _ (respond run_started_response) "/api/run" None
                run_started_response eq_refl) as (_ & Hok & _).
    apply Hok. reflexivity.
  - destruct (fetchJson_settles _ (respond run_started_response) "/api/run" None
                run_started_response eq_refl) as (_ & _ & Honly & _).
    apply (Honly run_started). reflexivity.
Defined.

Lemma fetchItems_url_parameters_witness :
  In "limit" (JsLib.URLSearchParams_parse
                (JsLib.query_of (Frontend.fetchItems_url no_engine app_params))).*1 /\
  In "topic" (JsLib.URLSearchParams_parse
                (JsLib.query_of (Frontend.fetchItems_url no_engine app_params))).*1 /\
  In "article_type"
     (JsLib.URLSearchParams_parse
        (JsLib.query_of (Frontend.fetchItems_url no_engine app_params))).*1 /\
  Frontend.fetchItems no_engine
    (only_at "/api/items?limit=50&topic=AI+Agents&article_type=news" items_response)
    app_params =
  Frontend.fetchItems no_engine (respond items_response) app_params /\
  Frontend.fetchItems_url no_engine
    (Props.with_minRelevance (Some half) Frontend.no_params) = "/api/items".
Proof.
  destruct (fetchItems_url_parameters no_engine app_params)
    as (_ & Hl & Ht & Ha & Only & _).
  split; [|split; [|split; [|split]]].
  - apply Hl. exists (Js.of_Z 50). split; reflexivity.
  - apply Ht. exists "AI Agents". split; [reflexivity|discriminate].
  - apply Ha. exists "news". split; [reflexivity|discriminate].
  - apply (Only (respond items_response)
             (only_at "/api/items?limit=50&topic=AI+Agents&article_type=news"
                items_response)).
    reflexivity.
  - destruct (fetchItems_url_parameters no_engine
                (Props.with_minRelevance (Some half) Frontend.no_params))
      as (_ & _ & _ & _ & _ & _ & Hbare & _).
    apply Hbare. repeat split; reflexivity.
Defined.

Lemma fetchItems_query_contract_witness :
  In ("limit", Props.read_back (Js.Number_toString no_engine (Js.of_Z 50)))
     (JsLib.URLSearchParams_parse
        (JsLib.query_of (Frontend.fetchItems_url no_engine app_params))) /\
  In ("topic", "AI Agents")
     (JsLib.URLSearchParams_parse
        (JsLib.query_of (Frontend.fetchItems_url no_engine app_params))) /\
  In ("article_type", "news")
     (JsLib.URLSearchParams_parse
        (JsLib.query_of (Frontend.fetchItems_url no_engine app_params))) /\
  In "topic" ["limit"; "topic"; "article_type"] /\
  Frontend.loadItems no_engine (respond items_response) app_params = inl [].
Proof.
  destruct (fetchItems_query_contract no_engine app_params)
    as (Hl & Ht & Ha & Hnames & _ & _ & Hresp).
  split; [|split; [|split; [|split]]].
  - apply Hl; reflexivity.
  - apply (Ht "AI Agents"); [reflexivity|discriminate|reflexivity].
  - apply (Ha "news"); [reflexivity|discriminate|reflexivity].
  - apply (Hnames "topic" "AI Agents").
    apply (Ht "AI Agents"); [reflexivity|discriminate|reflexivity].
  - apply (Hresp (respond items_response) no_items). reflexivity.
Defined.

Lemma article_type_news_or_tutorial_witness :
  Enrich.article_type (Enrich.to_processed no_embedding 0 rss_item news_summary) = "news" \/
  Enrich.article_type (Enrich.to_processed no_embedding 0 rss_item news_summary) = "tutorial".
Proof.
  destruct (article_type_news_or_tutorial prompt_llm no_embedding 0) as (Htype & _).
  apply (Htype [rss_item]). left. reflexivity.
Defined.

Lemma topics_within_categories_witness :
  In "LLMs" ["LLMs"; "AI Agents"; "AI Safety"; "MLOps"; "Computer Vision"; "NLP";
             "Open Source"; "Products"; "Research"; "Industry"] /\
  (exists p, Enrich.summarize prompt_llm no_embedding 0 [rss_item] = [p] /\
     In "Research" (Enrich.topics p) /\ ~ In "Gardening" (Enrich.topics p)).
Proof.
  destruct (topics_within_categories prompt_llm no_embedding 0) as (Hknown & Hdrop & _).
  split.
  - apply (Hknown [rss_item] (Enrich.to_processed no_embedding 0 rss_item news_summary)).
    + left. reflexivity.
    + left. reflexivity.
  - destruct (Hdrop rss_item news_summary) as (p & Hp & Htopics).
    + reflexivity.
    + left. reflexivity.
    + exists p. split; [exact Hp|]. split.
      * apply Htopics. split.
        -- right. right. left. reflexivity.
        -- do 8 right. left. reflexivity.
      * intros H. apply Htopics in H as [_ H].
        repeat (destruct H as [H|H]; [discriminate H|]). destruct H.
Defined.

End Instances.

(* ===================================================================== *)
(** * Further properties of the clients *)
(* ===================================================================== *)

(** ** The query string of fetchItems *)

Section FetchItemsQuery.
Import JsLib Frontend Props.

(** X3: parsing the query of the URL that [fetchItems] requests, as the
    form-urlencoded parser does, gives back exactly the parameters that were
    set, whatever bytes their values hold: the pair topic=v is read exactly
    when params.topic is a non-empty string and v is that string as
    URLSearchParams reads it back, and likewise for article_type and for the
    printed limit.  A well-formed string is read back unchanged, and a lone
    surrogate (here U+D800 after an x) as U+FFFD. *)
Theorem fetchItems_query_round_trip (e : Q -> string) (params : FetchItemsParams) :
  (forall k v,
     In (k, v) (URLSearchParams_parse (query_of (fetchItems_url e params))) <->
     (k = "limit" /\ exists l, limit params = Some l /\ Js.truthy_number l = true /\
                               v = read_back (Js.Number_toString e l)) \/
     (k = "topic" /\ exists t, topic params = Some t /\ t <> "" /\ v = read_back t) \/
     (k = "article_type" /\
        exists a, articleType params = Some a /\ a <> "" /\ v = read_back a)) /\
  (forall s, Js.isWellFormed s = true -> read_back s = s) /\
  read_back (String "x" (String "237" (String "160" (String "128" "")))) =
    String "x" Js.replacement.
Proof.
  split; [|split].
  - intros k v. apply parsed_pair.
  - apply read_back_wellformed.
  - reflexivity.
Qed.

Lemma sent_lists_equal e p p' :
  sent_limit e p ++ sent_topic p ++ sent_articleType p =
  sent_limit e p' ++ sent_topic p' ++ sent_articleType p' ->
  sent_limit e p = sent_limit e p' /\ sent_topic p = sent_topic p' /\
  sent_articleType p = sent_articleType p'.
Proof.
  unfold sent_limit, sent_topic, sent_articleType.
  destruct (limit p) as [l|], (limit p') as [l'|];
  destruct (topic p) as [t|], (topic p') as [t'|];
  destruct (articleType p) as [a|], (articleType p') as [a'|];
  repeat match goal with |- context [if ?b then _ else _] => destruct b end;
  simpl; intros H; try discriminate H; try (injection H as ?; subst);
  repeat split; congruence.
Qed.

Lemma url_determines_sent e p p' :
  fetchItems_url e p = fetchItems_url e p' ->
  sent_limit e p = sent_limit e p' /\ sent_topic p = sent_topic p' /\
  sent_articleType p = sent_articleType p'.
Proof.
  intros H. apply sent_lists_equal.
  rewrite <- !searchParams_normal_form. apply toString_inj.
  rewrite <- !url_query. now rewrite H.
Qed.

(** X4: two params objects are requested with the same URL exactly when they
    agree on what is sent: the printed limit, the topic and the article type
    (each only when truthy, and as the scalar value string it is sent as).
    No topic or type can pass for another one or for a second parameter: two
    well-formed topics that are requested with the same URL are the same. *)
Theorem fetchItems_url_determines_filters (e : Q -> string) (p p' : FetchItemsParams) :
  (fetchItems_url e p = fetchItems_url e p' <->
   sent_limit e p = sent_limit e p' /\ sent_topic p = sent_topic p' /\
   sent_articleType p = sent_articleType p') /\
  (forall t t', fetchItems_url e p = fetchItems_url e p' ->
     topic p = Some t -> topic p' = Some t' ->
     Js.USVString t = Js.USVString t' /\
     (Js.isWellFormed t = true -> Js.isWellFormed t' = true -> t = t')).
Proof.
  split.
  - split; [apply url_determines_sent|].
    intros (H1 & H2 & H3). rewrite !fetchItems_url_shape, !searchParams_normal_form.
    now rewrite H1, H2, H3.
  - intros t t' H Ht Ht'. apply url_determines_sent in H as (_ & H & _).
    unfold sent_topic in H. rewrite Ht, Ht' in H. unfold Js.truthy_string in H.
    assert (U : Js.USVString t = Js.USVString t').
    { destruct (String.eqb_spec t ""), (String.eqb_spec t' ""); simpl in H;
        subst; try reflexivity; try discriminate H. now injection H. }
    split; [exact U|]. intros W W'.
    now rewrite <- (USVString_wellformed t W), <- (USVString_wellformed t' W').
Qed.
End FetchItemsQuery.

(** ** NewsCard, NewsList and App *)

Ltac div_lia := Z.to_euclidean_division_equations; lia.

Section RelativeTime.
Import JsLib FrontendUI.

Lemma floor_div_by (q : Q) (z : Z) (d : positive) :
  (q == inject_Z z)%Q -> Js.Math_floor (Js.div_by (Js.Finite q) d) = Js.of_Z (z / Z.pos d).
Proof.
  intros H. unfold Js.Math_floor, Js.div_by. f_equal.
  rewrite Zdiv_Qdiv. apply Qfloor_comp. now rewrite H.
Qed.

Lemma floor_div_by_Z (z : Z) (d : positive) :
  Js.Math_floor (Js.div_by (Js.of_Z z) d) = Js.of_Z (z / Z.pos d).
Proof. now apply floor_div_by. Qed.

Lemma lt_of_Z (a b : Z) : Js.lt (Js.of_Z a) (Js.of_Z b) = (a <? b).
Proof.
  unfold Js.lt, Js.of_Z.
  destruct (Z.ltb_spec a b) as [L|L].
  - apply negb_true_iff, not_true_iff_false. rewrite Qle_bool_iff, <- Zle_Qle. lia.
  - apply negb_false_iff. rewrite Qle_bool_iff, <- Zle_Qle. lia.
Qed.

Lemma sub_of_Z (a b : Z) :
  exists q, sub (Js.of_Z a) (Js.of_Z b) = Js.Finite q /\ (q == inject_Z (a - b))%Q.
Proof.
  eexists. split; [reflexivity|].
  unfold Z.sub. now rewrite inject_Z_plus, inject_Z_opp.
Qed.

Lemma formatRelativeTime_integers e getTime toLocale (now t : Z) (ds : string) :
  getTime ds = Js.of_Z t ->
  formatRelativeTime e getTime toLocale (Js.of_Z now) ds =
  let d := now - t in
  if d / 60000 <? 60 then Js.Number_toString e (Js.of_Z (d / 60000)) +:+ "m ago"
  else if d / 3600000 <? 24 then Js.Number_toString e (Js.of_Z (d / 3600000)) +:+ "h ago"
  else if d / 86400000 <? 7 then Js.Number_toString e (Js.of_Z (d / 86400000)) +:+ "d ago"
  else toLocale (Js.of_Z t).
Proof.
  intros H. unfold formatRelativeTime. cbv zeta. rewrite H.
  destruct (sub_of_Z now t) as (q & -> & Hq).
  rewrite (floor_div_by q (now - t) 60000 Hq), !floor_div_by_Z, !lt_of_Z.
  rewrite !Z.div_div by lia.
  reflexivity.
Qed.

(** X1: [formatRelativeTime] on a valid date that is not in the future (time
    values are integers, below 2^53 apart).  Less than an hour ago it shows
    the whole minutes, 0 to 59, and "m ago"; from one hour to less than a day
    the whole hours, 1 to 23, and "h ago"; from one day to less than a week
    the whole days, 1 to 6, and "d ago"; from a week on the locale date. *)
Theorem formatRelativeTime_units (e : Q -> string) (getTime : string -> Js.Number)
    (toLocale : Js.Number -> string) (now t : Z) (ds : string) :
  getTime ds = Js.of_Z t -> Z.abs (now - t) < 2 ^ 53 ->
  let d := now - t in
  let shown := formatRelativeTime e getTime toLocale (Js.of_Z now) ds in
  (0 <= d < 3600000 ->
     shown = pretty (d / 60000) +:+ "m ago" /\ 0 <= d / 60000 <= 59) /\
  (3600000 <= d < 86400000 ->
     shown = pretty (d / 3600000) +:+ "h ago" /\ 1 <= d / 3600000 <= 23) /\
  (86400000 <= d < 604800000 ->
     shown = pretty (d / 86400000) +:+ "d ago" /\ 1 <= d / 86400000 <= 6) /\
  (604800000 <= d -> shown = toLocale (Js.of_Z t)).
Proof.
  intros H Hb d shown. subst shown.
  rewrite (formatRelativeTime_integers e getTime toLocale now t ds H).
  fold d. cbv zeta. fold d in Hb.
  assert (P : forall k, 0 < k -> Z.abs (d / k) < 10 ^ 21).
  { intros k Hk. assert (Hp : 2 ^ 53 < 10 ^ 21) by reflexivity.
    assert (Z.abs (d / k) <= Z.abs d); [|lia].
    Z.to_euclidean_division_equations. nia. }
  split; [|split; [|split]]; intros Hd.
  - split; [|div_lia].
    destruct (Z.ltb_spec (d / 60000) 60); [|div_lia].
    now rewrite Number_toString_of_Z by (apply P; div_lia).
  - split; [|div_lia].
    destruct (Z.ltb_spec (d / 60000) 60); [div_lia|].
    destruct (Z.ltb_spec (d / 3600000) 24); [|div_lia].
    now rewrite Number_toString_of_Z by (apply P; div_lia).
  - split; [|div_lia].
    destruct (Z.ltb_spec (d / 60000) 60); [div_lia|].
    destruct (Z.ltb_spec (d / 3600000) 24); [div_lia|].
    destruct (Z.ltb_spec (d / 86400000) 7); [|div_lia].
    now rewrite Number_toString_of_Z by (apply P; div_lia).
  - destruct (Z.ltb_spec (d / 60000) 60); [div_lia|].
    destruct (Z.ltb_spec (d / 3600000) 24); [div_lia|].
    destruct (Z.ltb_spec (d / 86400000) 7); [div_lia|]. reflexivity.
Qed.

(** X2: a date in the future is shown as a negative number of minutes and
    "m ago", however far ahead it lies (never hours, days or the date); a
    string that is not a date is shown as the locale text of the invalid
    date. *)
Theorem formatRelativeTime_future_or_invalid (e : Q -> string)
    (getTime : string -> Js.Number) (toLocale : Js.Number -> string) (ds : string) :
  (forall now t : Z,
     getTime ds = Js.of_Z t -> now < t -> t - now < 2 ^ 53 ->
     formatRelativeTime e getTime toLocale (Js.of_Z now) ds =
       pretty ((now - t) / 60000) +:+ "m ago" /\
     (now - t) / 60000 <= -1) /\
  (forall now : Js.Number,
     getTime ds = Js.NaN ->
     formatRelativeTime e getTime toLocale now ds = toLocale Js.NaN).
Proof.
  split.
  - intros now t H Hlt Hb.
    rewrite (formatRelativeTime_integers e getTime toLocale now t ds H). cbv zeta.
    assert ((now - t) / 60000 <= -1) by div_lia.
    assert (now - t <= (now - t) / 60000) by div_lia.
    assert (Hp : 2 ^ 53 < 10 ^ 21) by reflexivity.
    split; [|assumption].
    destruct (Z.ltb_spec ((now - t) / 60000) 60); [|lia].
    now rewrite Number_toString_of_Z by lia.
  - intros now H. unfold formatRelativeTime. rewrite H. now destruct now.
Qed.
End RelativeTime.

Lemma append_empty_r (s : string) : s +:+ "" = s.
Proof.
  induction s as [|c s IH]; [reflexivity|].
  change (String c (s +:+ "") = String c s). now f_equal.
Qed.

Section NewsListFacts.
Import Fetch JsLib Frontend FrontendUI.

(** X6: what NewsList shows once [loadItems] has run.  Never the spinner;
    after a success the cards of the response, or "No articles found" for an
    empty one; after a failure the error panel with the message - unless the
    message is empty, when the previously loaded items are shown as if
    nothing had failed. *)
Theorem App_list_after_load (e : Q -> string)
    (fetch : string -> option RequestInit -> Promise (Response ItemsResponse))
    (params : FetchItemsParams) (st : NewsState) :
  App_list (FrontendUI.loadItems e fetch params st) =
  match fetchItems e fetch params with
  | Fulfilled response =>
      match Frontend.items response with
      | [] => NoArticles
      | _ => Cards (Frontend.items response)
      end
  | Rejected err =>
      if String.eqb (message_of err) "" then
        match FrontendUI.items st with
        | [] => NoArticles
        | _ => Cards (FrontendUI.items st)
        end
      else FailedToLoad (message_of err)
  end.
Proof.
  unfold FrontendUI.loadItems, App_list, NewsList.
  destruct (fetchItems e fetch params) as [response|err]; simpl.
  - now destruct (Frontend.items response).
  - unfold Js.truthy_string. destruct (String.eqb (message_of err) ""); simpl; [|reflexivity].
    now destruct (FrontendUI.items st).
Qed.

(** X5: the URL that App requests for a selection.  It always carries
    limit=50, then the selected topic and the selected article type, each
    percent-encoded as URLSearchParams does it (a lone surrogate as U+FFFD)
    and only when selected and not empty. *)
Theorem App_request_url (e : Q -> string) (selectedTopic selectedArticleType : option string) :
  fetchItems_url e (App_params selectedTopic selectedArticleType) =
  "/api/items?limit=50" +:+
  match selectedTopic with
  | Some t =>
      if String.eqb t "" then "" else "&topic=" +:+ Js.urlencode (Js.USVString t)
  | None => ""
  end +:+
  match selectedArticleType with
  | Some a =>
      if String.eqb a "" then ""
      else "&article_type=" +:+ Js.urlencode (Js.USVString a)
  | None => ""
  end.
Proof.
  rewrite fetchItems_url_shape, searchParams_normal_form.
  unfold Props.sent_limit, Props.sent_topic, Props.sent_articleType, App_params.
  cbn [limit topic articleType].
  change (Js.truthy_number (Js.of_Z 50)) with true. cbv iota.
  change (Js.USVString (Js.Number_toString e (Js.of_Z 50))) with "50".
  unfold Js.truthy_string.
  destruct selectedTopic as [t|]; [destruct (String.eqb t "")|];
    (destruct selectedArticleType as [a|]; [destruct (String.eqb a "")|]);
    cbn; rewrite ?append_empty_r; reflexivity.
Qed.
End NewsListFacts.

(** ** The admin pages *)

Section LangSmith.
Import Fetch JsLib AdminUI.

Lemma includes_503_in_message (statusText : string) :
  includes ("API request failed: " +:+ statusText) "503" = includes statusText "503".
Proof. reflexivity. Qed.

Lemma fetchJson_not_ok T (fetch : string -> option RequestInit -> Promise (Response T))
    url options response :
  fetch url options = Fulfilled response -> ok response = false ->
  Admin.fetchJson fetch url options =
  Rejected (Api (ApiError.new ("API request failed: " +:+ statusText response)
                              (Fetch.status response))).
Proof. intros H Hok. unfold Admin.fetchJson. now rewrite H, Hok. Qed.

(** X7: on a response that is not ok, [loadRuns] of useLangSmithRuns sets
    notConfigured exactly when the status text of the response contains 503;
    the status code is not looked at.  Otherwise the error is "API request
    failed: " and the status text.  The runs and the project name loaded
    before stay. *)
Theorem loadRuns_not_configured_by_status_text (e : Q -> string)
    (fetch : string -> option RequestInit -> Promise (Response LangSmithRunsResponse))
    (limit : option Js.Number) (st : LangSmithState) (response : Response LangSmithRunsResponse) :
  fetch (fetchLangSmithRuns_url e limit) None = Fulfilled response ->
  ok response = false ->
  let st' := loadRuns e fetch limit st in
  (notConfigured st' = true <-> includes (statusText response) "503" = true) /\
  (includes (statusText response) "503" = false ->
     st_error st' = Some ("API request failed: " +:+ statusText response)) /\
  st_runs st' = st_runs st /\ projectName st' = projectName st.
Proof.
  intros H Hok st'. subst st'. unfold loadRuns, fetchLangSmithRuns.
  rewrite (fetchJson_not_ok _ _ _ _ _ H Hok).
  cbn [message_of ApiError.message ApiError.new].
  rewrite includes_503_in_message.
  destruct (includes (statusText response) "503"); simpl; repeat split; auto; discriminate.
Qed.

(** X8: once [loadRuns] has run, loading is off and notConfigured and an
    error are never set together; a success replaces the runs and the project
    name and clears both, a failure keeps the runs and the project name and
    sets exactly one of the two. *)
Theorem loadRuns_settles (e : Q -> string)
    (fetch : string -> option RequestInit -> Promise (Response LangSmithRunsResponse))
    (limit : option Js.Number) (st : LangSmithState) :
  let st' := loadRuns e fetch limit st in
  loading st' = false /\
  ~ (notConfigured st' = true /\ st_error st' <> None) /\
  (forall response, fetchLangSmithRuns e fetch limit = Fulfilled response ->
     st_runs st' = runs response /\ projectName st' = Some (project_name response) /\
     st_error st' = None /\ notConfigured st' = false) /\
  (forall err, fetchLangSmithRuns e fetch limit = Rejected err ->
     st_runs st' = st_runs st /\ projectName st' = projectName st /\
     (notConfigured st' = true \/ st_error st' = Some (message_of err))).
Proof.
  intros st'. subst st'. unfold loadRuns.
  destruct (fetchLangSmithRuns e fetch limit) as [response|err].
  - simpl. split; [reflexivity|]. split; [intros [H _]; discriminate H|].
    split; [intros r [= <-]; auto|intros err H; discriminate H].
  - destruct (includes (message_of err) "503"); simpl.
    + split; [reflexivity|]. split; [intros [_ H]; now apply H|].
      split; [intros r H; discriminate H|intros err' [= <-]; auto].
    + split; [reflexivity|]. split; [intros [H _]; discriminate H|].
      split; [intros r H; discriminate H|intros err' [= <-]; auto].
Qed.

(** X9: what the LangSmith section of the Runs page shows once [loadRuns] has
    run.  Never the spinner; after a success the runs, or the empty notice;
    after a failure whose message contains 503 the not-configured notice;
    after any other failure the error box - unless the message is empty, when
    the runs loaded before are shown. *)
Theorem Runs_langsmith_section_after_load (e : Q -> string)
    (fetch : string -> option RequestInit -> Promise (Response LangSmithRunsResponse))
    (limit : option Js.Number) (st : LangSmithState) :
  Runs_langsmith_section (loadRuns e fetch limit st) =
  match fetchLangSmithRuns e fetch limit with
  | Fulfilled response =>
      match runs response with
      | [] => NoRunsNotice
      | _ => RunCards (runs response)
      end
  | Rejected err =>
      if includes (message_of err) "503" then NotConfiguredNotice
      else if String.eqb (message_of err) "" then
        match st_runs st with
        | [] => NoRunsNotice
        | _ => RunCards (st_runs st)
        end
      else ErrorBox (message_of err)
  end.
Proof.
  unfold loadRuns.
  destruct (fetchLangSmithRuns e fetch limit) as [response|err].
  - unfold Runs_langsmith_section, LangSmithRunsList. simpl.
    now destruct (runs response).
  - destruct (includes (message_of err) "503") eqn:E; [reflexivity|].
    unfold Runs_langsmith_section, LangSmithRunsList. simpl.
    unfold Js.truthy_string.
    destruct (String.eqb (message_of err) ""); simpl; [|reflexivity].
    now destruct (st_runs st).
Qed.

(** X10: once [handleTrigger] of TriggerButton has run, the button is
    enabled again and a result is shown.  onComplete is called exactly when
    the request resolved, whatever status it resolved with; the result line
    is green exactly when it resolved with status completed, so a started
    run, a failed run and every thrown error (shown with status failed and
    the error's message) are red. *)
Theorem handleTrigger_result (e : Q -> string)
    (fetch : string -> option RequestInit -> Promise (Response Admin.RunResponse.t))
    (st : TriggerState) :
  let st' := (handleTrigger e fetch st).1 in
  let called := (handleTrigger e fetch st).2 in
  running st' = false /\ backfillDays st' = backfillDays st /\
  exists r, result st' = Some r /\
    (called = true <->
       exists response,
         Admin.triggerRun e fetch (Some (backfillDays st)) = Fulfilled response) /\
    (result_class r = "text-green-600" <->
       exists response,
         Admin.triggerRun e fetch (Some (backfillDays st)) = Fulfilled response /\
         Admin.RunResponse.status response = Admin.RunResponse.completed) /\
    (forall err,
       Admin.triggerRun e fetch (Some (backfillDays st)) = Rejected err ->
       result_status r = "failed" /\ result_message r = message_of err).
Proof.
  intros st' called. subst st' called. unfold handleTrigger.
  destruct (Admin.triggerRun e fetch (Some (backfillDays st))) as [response|err]; simpl.
  - split; [reflexivity|]. split; [reflexivity|]. eexists. split; [reflexivity|].
    split; [|split].
    + split; eauto.
    + unfold result_class. simpl. split.
      * intros H. exists response. split; [reflexivity|].
        destruct (Admin.RunResponse.status response); simpl in H; try discriminate H.
        reflexivity.
      * intros (r & [= <-] & ->). reflexivity.
    + discriminate.
  - split; [reflexivity|]. split; [reflexivity|]. eexists. split; [reflexivity|].
    split; [|split].
    + split; [discriminate|]. intros (r & H). discriminate H.
    + unfold result_class. simpl. split; [discriminate|]. intros (r & H & _). discriminate H.
    + intros err' [= <-]. auto.
Qed.
End LangSmith.

Section Durations.
Import Admin.

Lemma round_of_Z (n : Z) : Js.Math_round (Js.of_Z n) = Js.of_Z n.
Proof.
  unfold Js.Math_round, Js.of_Z. do 2 f_equal.
  unfold Qfloor, Qplus, inject_Z. simpl.
  Z.to_euclidean_division_equations. lia.
Qed.

Lemma floor_quotient_of_Z (n : Z) : Qfloor (inject_Z n / inject_Z 60) = n / 60.
Proof. symmetry. apply Zdiv_Qdiv. Qed.

Lemma remainder_of_Z (n : Z) :
  (inject_Z n - inject_Z 60 * inject_Z (n / 60) == inject_Z (n mod 60))%Q.
Proof.
  rewrite <- inject_Z_mult. unfold Qminus. rewrite <- inject_Z_opp, <- inject_Z_plus.
  apply inject_Z_injective. rewrite (Z.mod_eq n 60) by lia. lia.
Qed.

Lemma floor_quotient_by_Z (n : Z) :
  Js.Math_floor (Js.div_by (Js.of_Z n) 60) = Js.of_Z (n / 60).
Proof.
  unfold Js.Math_floor, Js.div_by, Js.of_Z. do 2 f_equal. apply floor_quotient_of_Z.
Qed.

Lemma round_remainder_of_Z (n : Z) :
  60 <= n -> Js.Math_round (Js.rem_by (Js.of_Z n) 60) = Js.of_Z (n mod 60).
Proof.
  intros H. unfold Js.Math_round, Js.rem_by, Js.of_Z. do 2 f_equal.
  rewrite truncate_nonneg
    by (apply div_sixty_nonneg; change (inject_Z 60 <= inject_Z n)%Q; rewrite <- Zle_Qle; lia).
  change (Z.pos 60) with 60. rewrite floor_quotient_of_Z.
  rewrite (Qfloor_comp _ (inject_Z (n mod 60) + (1 # 2))%Q).
  - unfold Qfloor, Qplus, inject_Z. simpl. Z.to_euclidean_division_equations. lia.
  - now rewrite remainder_of_Z.
Qed.

(** X11: [formatDuration] of RunsTable on a whole number of seconds n (a
    safe integer, below 2^53 in absolute value): n and "s" below a minute,
    negative n included, and otherwise the quotient of n by 60, "m ", the
    remainder and "s", the remainder between 0 and 59. *)
Theorem formatDuration_whole_seconds (e : Q -> string) (n : Z) :
  Z.abs n < 2 ^ 53 ->
  formatDuration e (Some (Js.of_Z n)) =
  (if n <? 60 then pretty n +:+ "s"
   else pretty (n / 60) +:+ "m " +:+ pretty (n mod 60) +:+ "s") /\
  (60 <= n -> 0 <= n mod 60 <= 59).
Proof.
  intros Hn. split; [|intros; Z.to_euclidean_division_equations; lia].
  unfold formatDuration.
  assert (L : Js.lt (Js.of_Z n) (Js.of_Z 60) = (n <? 60)).
  { unfold Js.lt, Js.of_Z. destruct (Z.ltb_spec n 60).
    - apply negb_true_iff, not_true_iff_false. rewrite Qle_bool_iff, <- Zle_Qle. lia.
    - apply negb_false_iff. rewrite Qle_bool_iff, <- Zle_Qle. lia. }
  rewrite L. destruct (Z.ltb_spec n 60) as [H|H].
  - now rewrite round_of_Z, Number_toString_safe.
  - rewrite floor_quotient_by_Z, round_remainder_of_Z by lia.
    assert (60 < 2 ^ 53) by reflexivity.
    rewrite !Number_toString_safe; [reflexivity| |];
      Z.to_euclidean_division_equations; lia.
Qed.

(** X12: [formatDuration] of RunsTable never carries a rounded-up second
    over: from 59.5 seconds up to a minute it shows "60s", and when the
    seconds beyond the whole minutes are 59.5 or more it shows those minutes
    and "60s". *)
Theorem formatDuration_sixty_seconds (e : Q -> string) (q : Q) :
  ((119 # 2 <= q)%Q -> (q < 60)%Q -> formatDuration e (Some (Js.Finite q)) = "60s") /\
  ((60 <= q)%Q -> Qfloor (q / inject_Z 60) < 10 ^ 21 ->
   (119 # 2 <= q - inject_Z 60 * inject_Z (Qfloor (q / inject_Z 60)))%Q ->
   formatDuration e (Some (Js.Finite q)) =
   pretty (Qfloor (q / inject_Z 60)) +:+ "m 60s").
Proof.
  assert (F : forall x : Q, (60 <= x)%Q -> (x < 121 # 2)%Q -> Qfloor x = 60).
  { intros x Hl Hu. apply Z.le_antisymm.
    - assert (Hf := Qfloor_le x).
      assert (inject_Z (Qfloor x) < 121 # 2)%Q by (eapply Qle_lt_trans; eauto).
      unfold Qlt, inject_Z in H. simpl in H. lia.
    - change 60 with (Qfloor 60). now apply Qfloor_resp_le. }
  split.
  - intros Hl Hu. unfold formatDuration.
    apply lt_sixty in Hu as Hlt. rewrite Hlt. unfold Js.Math_round.
    rewrite (F (q + (1 # 2))%Q) by lra. reflexivity.
  - intros Hq Hm Hr. unfold formatDuration.
    assert (L : Js.lt (Js.Finite q) (Js.of_Z 60) = false).
    { apply not_true_iff_false. rewrite lt_sixty. now apply Qle_not_lt. }
    rewrite L. unfold Js.div_by, Js.rem_by, Js.Math_floor, Js.Math_round.
    rewrite truncate_nonneg by now apply div_sixty_nonneg.
    change (Z.pos 60) with 60.
    destruct (remainder_bounds q) as [_ Hlt].
    rewrite (F (q - inject_Z 60 * inject_Z (Qfloor (q / inject_Z 60)) + (1 # 2))%Q) by lra.
    pose proof (quotient_floor_nonneg q Hq).
    rewrite Number_toString_of_Z by lia. reflexivity.
Qed.
End Durations.

(** ** Deduplicate and Summarize, as the data-flow document describes them *)

Section DeduplicateMore.
Import Pipeline Props.

Lemma newest_first_strongly (l : list RawItem) :
  Sorted newer_or_same l -> StronglySorted newer_or_same l.
Proof.
  apply Sorted_StronglySorted. intros x y z Hxy Hyz.
  unfold newer_or_same in *. lia.
Qed.

Lemma strongly_sorted_later (l1 : list RawItem) x rest y :
  StronglySorted newer_or_same (l1 ++ x :: rest) -> In y rest ->
  published_at y <= published_at x.
Proof.
  induction l1 as [|a l1 IH]; simpl; intros H Hy.
  - apply StronglySorted_inv in H as [_ H].
    rewrite List.Forall_forall in H. now apply H.
  - apply StronglySorted_inv in H as [H _]. now apply IH.
Qed.

(** X13: the output of Deduplicate is sorted newest first: of two items of
    the output, the later one is not published after the earlier one. *)
Theorem deduplicate_newest_first (batch l1 l2 l3 : list RawItem) (x y : RawItem) :
  deduplicate batch = l1 ++ x :: l2 ++ y :: l3 ->
  published_at y <= published_at x.
Proof.
  intros H. apply (strongly_sorted_later l1 x (l2 ++ y :: l3)).
  - rewrite <- H. apply newest_first_strongly, sort_sorted.
  - apply in_or_app. right. now left.
Qed.

Lemma group_keys_in_batch batch k :
  In k (group_by_id batch).*1 -> In k (item_id <$> batch).
Proof.
  rewrite <- !list_elem_of_In, list_elem_of_fmap. intros ([k' g] & -> & Hin). simpl.
  pose proof (group_members _ _ _ Hin) as Hm.
  assert (Hh : In g.1 (group_in batch k')) by (rewrite <- Hm; now left).
  pose proof (group_in_id _ _ _ Hh) as Hid.
  apply filter_In in Hh as [Hh _].
  apply list_elem_of_fmap. exists g.1. split; [now rewrite Hid|now apply list_elem_of_In].
Qed.

(** X14: Deduplicate returns one item per item_id: the keys of the output
    are pairwise different, they are exactly the keys of the batch, and the
    output is no longer than the batch. *)
Theorem deduplicate_one_per_key (batch : list RawItem) :
  NoDup (item_id <$> deduplicate batch) /\
  (forall k, In k (item_id <$> deduplicate batch) <-> In k (item_id <$> batch)) /\
  (length (deduplicate batch) <= length batch)%nat.
Proof.
  split; [apply deduplicate_distinct|]. split.
  - intros k. split.
    + intros H. apply group_keys_in_batch.
      rewrite <- list_elem_of_In in *. now rewrite <- deduplicate_ids.
    + rewrite <- !list_elem_of_In, !list_elem_of_fmap.
      intros (x & -> & Hx). apply list_elem_of_In, deduplicate_covers in Hx as (m & Hm & Hid).
      exists m. split; [now rewrite Hid|now apply list_elem_of_In].
  - rewrite <- (length_fmap item_id), <- (length_fmap item_id batch).
    apply NoDup_incl_length.
    + apply NoDup_ListNoDup, deduplicate_distinct.
    + intros k Hk. apply group_keys_in_batch.
      rewrite <- list_elem_of_In in *. now rewrite <- deduplicate_ids.
Qed.

(** X15: on a batch whose keys are all different Deduplicate only sorts: the
    output is the batch itself, newest first, every item untouched. *)
Theorem deduplicate_without_duplicates (batch : list RawItem) :
  NoDup (item_id <$> batch) ->
  deduplicate batch = sort_newest_first batch /\ Permutation (deduplicate batch) batch.
Proof.
  intros H. assert (E : deduplicate batch = sort_newest_first batch).
  { unfold deduplicate. now rewrite group_by_id_distinct, merge_singletons. }
  split; [exact E|]. rewrite E. apply sort_perm.
Qed.

Lemma filter_head {A} (f : A -> bool) (l : list A) h t :
  List.filter f l = h :: t ->
  exists l1 l2, l = l1 ++ h :: l2 /\ Forall (fun y => f y = false) l1 /\ f h = true.
Proof.
  induction l as [|a l IH]; simpl; [discriminate|].
  destruct (f a) eqn:E.
  - intros [= -> <-]. exists [], l. repeat split; auto.
  - intros H. destruct (IH H) as (l1 & l2 & -> & Hl1 & Hh).
    exists (a :: l1), l2. repeat split; auto.
Qed.

(** X16: the source kind that a merged item shows is the first-seen one:
    the source_type of an emitted item is that of the first item of the batch
    with its key, and when several items were merged it is one of the
    merged_from_sources. *)
Theorem deduplicate_primary_is_first_seen (batch : list RawItem) (m : RawItem) :
  In m (deduplicate batch) ->
  exists l1 x l2, batch = l1 ++ x :: l2 /\ item_id x = item_id m /\
    Forall (fun y => item_id y <> item_id m) l1 /\
    source_type m = source_type x /\
    ((2 <= length (group_in batch (item_id m)))%nat ->
       source_type m ∈ merged_from_sources (raw_metadata m)).
Proof.
  intros H. pose proof (merged_item_fields batch m H) as Fields. cbv zeta in Fields.
  destruct (deduplicate_group _ _ H) as ([h t] & Hg & ->).
  unfold members in Hg. simpl in Hg. symmetry in Hg.
  assert (Hin : In h (group_in batch (item_id (merge_group (h, t)))))
    by (rewrite Hg; now left).
  destruct (filter_head _ _ _ _ Hg) as (l1 & l2 & Hb & Hl1 & Hh).
  exists l1, h, l2. split; [exact Hb|].
  unfold has_id in Hl1, Hh. apply String.eqb_eq in Hh. split; [exact Hh|].
  split; [|split].
  - eapply Forall_impl; [exact Hl1|]. intros y Hy. simpl in Hy.
    now apply String.eqb_neq in Hy.
  - now destruct t.
  - intros H2. destruct Fields as (_ & _ & _ & _ & Sets).
    destruct (Sets H2) as [Sources _]. apply Sources.
    exists h. split; [exact Hin|now destruct t].
Qed.
End DeduplicateMore.

Section SummarizeMore.
Import Enrich.

Lemma call_with_retry_exhausted llm item tries : forall k,
  (forall j, (k <= j < k + tries)%nat -> validate (llm item j) = None) ->
  call_with_retry llm item k tries = None.
Proof.
  induction tries as [|tries IH]; intros k H; simpl; [reflexivity|].
  rewrite (H k) by lia. apply IH. intros j Hj. apply H. lia.
Qed.

Lemma call_with_retry_first llm item tries : forall k j s,
  (k <= j < k + tries)%nat -> validate (llm item j) = Some s ->
  (forall i, (k <= i < j)%nat -> validate (llm item i) = None) ->
  call_with_retry llm item k tries = Some s.
Proof.
  induction tries as [|tries IH]; intros k j s Hj Hs Hnone; simpl; [lia|].
  destruct (decide (j = k)) as [->|Hne].
  - now rewrite Hs.
  - rewrite (Hnone k) by lia. apply (IH (S k) j s); [lia|exact Hs|].
    intros i Hi. apply Hnone. lia.
Qed.

(** X17: Summarize calls the service at most three times for an item (one
    call and two retries): the item is dropped when the first three answers
    all fail validation, it is built from the first valid answer among them,
    and no later answer matters. *)
Theorem summarize_retry_budget
    (llm : Pipeline.RawItem -> nat -> ServiceResult)
    (embed : string -> option (list Q)) (now : Z) (item : Pipeline.RawItem) :
  ((forall k, (k < 3)%nat -> validate (llm item k) = None) ->
     summarize_item llm embed now item = None) /\
  (forall k s, (k < 3)%nat -> validate (llm item k) = Some s ->
     (forall j, (j < k)%nat -> validate (llm item j) = None) ->
     summarize_item llm embed now item = Some (to_processed embed now item s)) /\
  (forall llm', (forall k, (k < 3)%nat -> llm' item k = llm item k) ->
     summarize_item llm' embed now item = summarize_item llm embed now item).
Proof.
  unfold summarize_item, MAX_RETRIES. split; [|split].
  - intros H. rewrite call_with_retry_exhausted; [reflexivity|].
    intros j Hj. apply H. lia.
  - intros k s Hk Hs Hnone.
    rewrite (call_with_retry_first llm item 3 0 k s); [reflexivity|lia|exact Hs|].
    intros i Hi. apply Hnone. lia.
  - intros llm' H. f_equal. simpl.
    rewrite !H by lia. reflexivity.
Qed.

(** X18: Summarize keeps the identity of what it is given, in whatever
    order it collects the results: the keys of the processed items are keys
    of the input, each input item accounting for at most one of them, so
    there are at most as many; and each processed item has the item_id and
    the published_at of an input item. *)
Theorem summarize_keeps_identity
    (llm : Pipeline.RawItem -> nat -> ServiceResult)
    (embed : string -> option (list Q)) (now : Z) (items : list Pipeline.RawItem) :
  (item_id <$> summarize llm embed now items) ⊆+ (Pipeline.item_id <$> items) /\
  (length (summarize llm embed now items) <= length items)%nat /\
  (forall p, In p (summarize llm embed now items) ->
     exists item, In item items /\ item_id p = Pipeline.item_id item /\
       published_at p = Pipeline.published_at item).
Proof.
  assert (S : (item_id <$> summarize llm embed now items)
                `sublist_of` (Pipeline.item_id <$> items)).
  { induction items as [|x items IH]; [constructor|].
    unfold summarize in *. cbn [omap list_omap fmap list_fmap].
    unfold summarize_item at 1.
    destruct (call_with_retry llm x 0 (S MAX_RETRIES)) as [s|]; csimpl.
    - now apply sublist_skip.
    - now apply sublist_cons. }
  split; [now apply sublist_submseteq|]. split.
  - apply sublist_length in S. now rewrite !length_fmap in S.
  - intros p Hp. apply summarize_elem in Hp as (item & s & j & Hin & _ & _ & _ & ->).
    exists item. repeat split. exact Hin.
Qed.
End SummarizeMore.

(** ** The Runs page and the Dashboard *)

Section Pages.
Import Fetch JsLib AdminPages.

Lemma formatDuration_dash (e : Q -> string) (seconds : option Js.Number) :
  Admin.formatDuration e seconds = "-" <-> seconds = None.
Proof.
  destruct seconds as [x|]; split; try discriminate; try reflexivity.
  intros H. exfalso. revert H. unfold Admin.formatDuration.
  destruct (Js.lt x (Js.of_Z 60)); [apply append_s_not_dash|apply append_m_not_dash].
Qed.

(** X19: what the Database Runs section of the Runs page shows once
    [loadRuns] of usePipelineRuns has run.  Never the spinner; after a
    success one row per run of the response, in order, or "No pipeline runs
    found"; after a failure the error box - unless the message is empty, when
    the runs loaded before are shown.  In a row the duration cell is "-"
    exactly when the run has no duration, and the started cell is "-" when
    started_at is null or empty. *)
Theorem Runs_database_section_after_load (e : Q -> string)
    (toLocale : string -> string)
    (fetch : string -> option RequestInit -> Promise (Response Admin.PipelineRunsResponse))
    (limit : option Js.Number) (st : RunsState) :
  Runs_database_section e toLocale (loadRuns e fetch limit st) =
    match Admin.fetchPipelineRuns e fetch (Some (default (Js.of_Z 20) limit)) with
    | Fulfilled response =>
        DatabaseTable
          match Admin.runs response with
          | [] => NoPipelineRuns
          | _ => RunRows (map (RunsTable_row e toLocale) (Admin.runs response))
          end
    | Rejected err =>
        if String.eqb (message_of err) "" then
          DatabaseTable
            match runs st with
            | [] => NoPipelineRuns
            | _ => RunRows (map (RunsTable_row e toLocale) (runs st))
            end
        else DatabaseError (message_of err)
    end /\
  (forall run,
     cell_duration (RunsTable_row e toLocale run) = "-" <->
     Admin.PipelineRun.duration_seconds run = None) /\
  (forall run,
     Admin.PipelineRun.started_at run = None \/
     Admin.PipelineRun.started_at run = Some "" ->
     cell_started (RunsTable_row e toLocale run) = "-").
Proof.
  split; [|split].
  - unfold loadRuns.
    destruct (Admin.fetchPipelineRuns e fetch (Some (default (Js.of_Z 20) limit)))
      as [response|err].
    + unfold Runs_database_section, RunsTable. simpl.
      now destruct (Admin.runs response).
    + unfold Runs_database_section, RunsTable. simpl. unfold Js.truthy_string.
      destruct (String.eqb (message_of err) ""); simpl; [|reflexivity].
      now destruct (runs st).
  - intros run. apply formatDuration_dash.
  - intros run [H|H]; unfold RunsTable_row; simpl; now rewrite H.
Qed.

(** X20: the Dashboard does not show that loading the runs failed.  Once
    [loadRuns] has run, its cards are those of the runs of the response or,
    after a failure, of the runs loaded before: the status of the first run
    or "No runs yet", the persisted items of the first run or 0, the number
    of runs, and a preview of the first three runs, which has between one
    and three lines when there are runs. *)
Theorem Dashboard_runs_after_load (e : Q -> string)
    (fetch : string -> option RequestInit -> Promise (Response Admin.PipelineRunsResponse))
    (limit : option Js.Number) (st : RunsState) :
  let st' := loadRuns e fetch limit st in
  let shown :=
    match Admin.fetchPipelineRuns e fetch (Some (default (Js.of_Z 20) limit)) with
    | Fulfilled response => Admin.runs response
    | Rejected _ => runs st
    end in
  Dashboard_last_run st' =
    match shown with
    | lastRun :: _ => LastRunBadge (Admin.PipelineRun.status lastRun)
    | [] => NoRunsYet
    end /\
  Dashboard_items_persisted e st' =
    Js.Number_toString e
      match shown with
      | lastRun :: _ => Admin.PipelineRun.items_persisted lastRun
      | [] => Js.of_Z 0
      end /\
  Dashboard_total_runs e st' = Js.Number_toString e (Js.of_Z (Z.of_nat (length shown))) /\
  (shown = [] -> Dashboard_recent_runs e st' = NoRecentRuns) /\
  (shown <> [] ->
   exists lines, Dashboard_recent_runs e st' = RecentLines lines /\
     length lines = Nat.min 3 (length shown) /\ (1 <= length lines <= 3)%nat /\
     (recent_run_id <$> lines) = take 3 (Admin.PipelineRun.run_id <$> shown)).
Proof.
  intros st' shown. subst st' shown. unfold loadRuns.
  destruct (Admin.fetchPipelineRuns e fetch (Some (default (Js.of_Z 20) limit)))
    as [response|err];
    unfold Dashboard_last_run, Dashboard_items_persisted, Dashboard_total_runs,
      Dashboard_recent_runs; cbn [runs loading].
  - destruct (Admin.runs response) as [|r rs] eqn:E.
    + repeat split; try reflexivity. congruence.
    + repeat split; try reflexivity; [discriminate|]. intros _.
      eexists. split; [reflexivity|].
      rewrite length_map, length_take. split; [reflexivity|]. split; [cbn [length]; lia|].
      rewrite <- fmap_take. rewrite <- list_fmap_compose. reflexivity.
  - destruct (runs st) as [|r rs] eqn:E.
    + repeat split; try reflexivity. congruence.
    + repeat split; try reflexivity; [discriminate|]. intros _.
      eexists. split; [reflexivity|].
      rewrite length_map, length_take. split; [reflexivity|]. split; [cbn [length]; lia|].
      rewrite <- fmap_take. rewrite <- list_fmap_compose. reflexivity.
Qed.

(** X21: the health card of the Dashboard once [loadHealth] of useHealth has
    run: the badges of the response, with connected or disconnected and
    enabled or disabled for the two flags; after a failure the badges of the
    health loaded before, and "Failed to fetch health status" only when none
    was ever loaded. *)
Theorem Dashboard_health_after_load
    (fetch : string -> option RequestInit -> Promise (Response HealthResponse))
    (st : HealthState) :
  Dashboard_health (loadHealth fetch st) =
  match fetchHealth fetch, health st with
  | Fulfilled h, _ | Rejected _, Some h =>
      HealthBadges (health_status h)
        (if database h then "connected" else "disconnected")
        (if pgvector h then "enabled" else "disabled")
  | Rejected _, None => HealthFailed
  end.
Proof.
  unfold loadHealth, Dashboard_health.
  destruct (fetchHealth fetch) as [h|err]; simpl; [reflexivity|].
  now destruct (health st).
Qed.
End Pages.

(* ===================================================================== *)
(** * The further statements at the sample data *)
(* ===================================================================== *)

Section MoreInstances.
Import Samples MoreSamples.

Lemma formatRelativeTime_units_witness :
  FrontendUI.formatRelativeTime no_engine sample_getTime sample_toLocaleDateString
    (Js.of_Z (article_time + 5400000)) "2023-11-14T22:13:20Z" = "1h ago" /\
  FrontendUI.formatRelativeTime no_engine sample_getTime sample_toLocaleDateString
    (Js.of_Z (article_time + 59999)) "2023-11-14T22:13:20Z" = "0m ago".
Proof.
  split.
  - pose proof (formatRelativeTime_units no_engine sample_getTime
                  sample_toLocaleDateString (article_time + 5400000) article_time
                  "2023-11-14T22:13:20Z" eq_refl eq_refl) as H.
    cbv zeta in H. destruct H as (_ & H & _).
    apply H. unfold article_time. lia.
  - pose proof (formatRelativeTime_units no_engine sample_getTime
                  sample_toLocaleDateString (article_time + 59999) article_time
                  "2023-11-14T22:13:20Z" eq_refl eq_refl) as H.
    cbv zeta in H. destruct H as (H & _).
    apply H. unfold article_time. lia.
Defined.

Lemma formatRelativeTime_future_or_invalid_witness :
  FrontendUI.formatRelativeTime no_engine sample_getTime sample_toLocaleDateString
    (Js.of_Z (article_time - 259200000)) "2023-11-14T22:13:20Z" = "-4320m ago" /\
  FrontendUI.formatRelativeTime no_engine sample_getTime sample_toLocaleDateString
    (Js.of_Z article_time) "yesterday" = "Invalid Date".
Proof.
  split.
  - destruct (formatRelativeTime_future_or_invalid no_engine sample_getTime
                sample_toLocaleDateString "2023-11-14T22:13:20Z") as (Future & _).
    apply (Future (article_time - 259200000) article_time eq_refl).
    + unfold article_time. lia.
    + reflexivity.
  - destruct (formatRelativeTime_future_or_invalid no_engine sample_getTime
                sample_toLocaleDateString "yesterday") as (_ & Invalid).
    apply Invalid. reflexivity.
Defined.

Lemma fetchItems_query_round_trip_witness :
  In ("topic", "R&D = 100%")
     (JsLib.URLSearchParams_parse
        (JsLib.query_of
           (Frontend.fetchItems_url no_engine
              (FrontendUI.App_params (Some "R&D = 100%") None)))) /\
  Props.read_back "R&D = 100%" = "R&D = 100%".
Proof.
  destruct (fetchItems_query_round_trip no_engine
              (FrontendUI.App_params (Some "R&D = 100%") None)) as (Pairs & Fixed & _).
  split.
  - apply Pairs. right. left. split; [reflexivity|].
    exists "R&D = 100%". split; [reflexivity|]. split; [discriminate|reflexivity].
  - apply Fixed. reflexivity.
Defined.

Lemma fetchItems_url_determines_filters_witness :
  Frontend.fetchItems_url no_engine app_params =
    Frontend.fetchItems_url no_engine (Props.with_minRelevance (Some half) app_params) /\
  "AI Agents" = "AI Agents".
Proof.
  destruct (fetchItems_url_determines_filters no_engine app_params
              (Props.with_minRelevance (Some half) app_params)) as (Same & Topics).
  split.
  - apply Same. repeat split.
  - destruct (Topics "AI Agents" "AI Agents" eq_refl eq_refl eq_refl) as (_ & H).
    apply H; reflexivity.
Defined.

Lemma loadRuns_not_configured_by_status_text_witness :
  AdminUI.st_error
    (AdminUI.loadRuns no_engine (respond service_unavailable) None
       AdminUI.initial_LangSmithState) =
  Some "API request failed: Service Unavailable".
Proof.
  pose proof (loadRuns_not_configured_by_status_text no_engine
                (respond service_unavailable) None AdminUI.initial_LangSmithState
                service_unavailable eq_refl eq_refl) as H.
  cbv zeta in H. destruct H as (_ & H & _).
  apply H. reflexivity.
Defined.

Lemma loadRuns_settles_witness :
  AdminUI.projectName
    (AdminUI.loadRuns no_engine (respond langsmith_ok) None
       AdminUI.initial_LangSmithState) = Some "ai-news-aggregator".
Proof.
  pose proof (loadRuns_settles no_engine (respond langsmith_ok) None
                AdminUI.initial_LangSmithState) as H.
  cbv zeta in H. destruct H as (_ & _ & H & _).
  destruct (H no_langsmith_runs eq_refl) as (_ & Hname & _). exact Hname.
Defined.

Lemma handleTrigger_result_witness :
  (AdminUI.handleTrigger no_engine (respond run_started_response) seven_days).2 = true.
Proof.
  pose proof (handleTrigger_result no_engine (respond run_started_response)
                seven_days) as H.
  cbv zeta in H. destruct H as (_ & _ & r & _ & Hcalled & _).
  apply Hcalled. exists run_started. reflexivity.
Defined.

Lemma formatDuration_whole_seconds_witness :
  Admin.formatDuration no_engine (Some (Js.of_Z 3725)) = "62m 5s" /\
  0 <= 3725 mod 60 <= 59.
Proof.
  destruct (formatDuration_whole_seconds no_engine 3725) as (Shown & Remainder).
  - reflexivity.
  - split; [exact Shown|]. apply Remainder. lia.
Defined.

Lemma formatDuration_sixty_seconds_witness :
  Admin.formatDuration no_engine (Some (Js.Finite (119 # 2))) = "60s" /\
  Admin.formatDuration no_engine (Some (Js.Finite (1197 # 10))) = "1m 60s".
Proof.
  split.
  - apply (formatDuration_sixty_seconds no_engine (119 # 2)).
    + unfold Qle. simpl. lia.
    + reflexivity.
  - apply (formatDuration_sixty_seconds no_engine (1197 # 10)).
    + unfold Qle. simpl. lia.
    + reflexivity.
    + vm_compute. discriminate.
Defined.

Lemma deduplicate_newest_first_witness :
  Pipeline.published_at older_item <=
  Pipeline.published_at (Pipeline.merge_group (rss_item, [gmail_item])).
Proof.
  apply (deduplicate_newest_first [older_item; rss_item; gmail_item]
           [] [] [] (Pipeline.merge_group (rss_item, [gmail_item])) older_item).
  reflexivity.
Defined.

Lemma deduplicate_one_per_key_witness :
  In "77b0" (Pipeline.item_id <$> Pipeline.deduplicate [older_item; rss_item; gmail_item]).
Proof.
  destruct (deduplicate_one_per_key [older_item; rss_item; gmail_item]) as (_ & Keys & _).
  apply Keys. left. reflexivity.
Defined.

Lemma deduplicate_without_duplicates_witness :
  Pipeline.deduplicate [older_item; rss_item] = [rss_item; older_item].
Proof.
  destruct (deduplicate_without_duplicates [older_item; rss_item]) as (Sorted & _).
  - apply (bool_decide_eq_true_1 _). reflexivity.
  - exact Sorted.
Defined.

Lemma deduplicate_primary_is_first_seen_witness :
  (exists l1 x l2, [gmail_item; rss_item] = l1 ++ x :: l2 /\
     Pipeline.source_type (Pipeline.merge_group (gmail_item, [rss_item])) =
     Pipeline.source_type x) /\
  Pipeline.source_type (Pipeline.merge_group (gmail_item, [rss_item])) ∈
    Pipeline.merged_from_sources
      (Pipeline.raw_metadata (Pipeline.merge_group (gmail_item, [rss_item]))).
Proof.
  destruct (deduplicate_primary_is_first_seen [gmail_item; rss_item]
              (Pipeline.merge_group (gmail_item, [rss_item])))
    as (l1 & x & l2 & Hb & _ & _ & Hs & Hm).
  - left. reflexivity.
  - split; [exists l1, x, l2; split; assumption|].
    apply Hm. apply Nat.le_refl.
Defined.

Lemma summarize_retry_budget_witness :
  Enrich.summarize_item slow_llm no_embedding 0 rss_item =
    Some (Enrich.to_processed no_embedding 0 rss_item news_summary) /\
  Enrich.summarize_item failing_llm no_embedding 0 rss_item = None.
Proof.
  split.
  - destruct (summarize_retry_budget slow_llm no_embedding 0 rss_item) as (_ & First & _).
    apply (First 2%nat news_summary); [lia|reflexivity|].
    intros [|[|j]] Hj; [reflexivity|reflexivity|lia].
  - destruct (summarize_retry_budget failing_llm no_embedding 0 rss_item) as (Dropped & _).
    apply Dropped. intros k _. reflexivity.
Defined.

Lemma summarize_keeps_identity_witness :
  exists item, In item [rss_item] /\
    Enrich.item_id (Enrich.to_processed no_embedding 0 rss_item news_summary) =
    Pipeline.item_id item.
Proof.
  destruct (summarize_keeps_identity prompt_llm no_embedding 0 [rss_item])
    as (_ & _ & Identity).
  destruct (Identity (Enrich.to_processed no_embedding 0 rss_item news_summary))
    as (item & Hin & Hid & _).
  - left. reflexivity.
  - exists item. split; assumption.
Defined.

Lemma Runs_database_section_after_load_witness :
  AdminPages.cell_duration (AdminPages.RunsTable_row no_engine as_written running_run) = "-" /\
  AdminPages.cell_started (AdminPages.RunsTable_row no_engine as_written running_run) = "-".
Proof.
  destruct (Runs_database_section_after_load no_engine as_written
              (respond runs_response) None AdminPages.initial_RunsState)
    as (_ & Duration & Started).
  split.
  - apply Duration. reflexivity.
  - apply Started. left. reflexivity.
Defined.

Lemma Dashboard_runs_after_load_witness :
  exists lines,
    AdminPages.Dashboard_recent_runs no_engine
      (AdminPages.loadRuns no_engine (respond runs_response) (Some (Js.of_Z 5))
         AdminPages.initial_RunsState) = AdminPages.RecentLines lines /\
    length lines = 1%nat.
Proof.
  pose proof (Dashboard_runs_after_load no_engine (respond runs_response)
                (Some (Js.of_Z 5)) AdminPages.initial_RunsState) as H.
  cbv zeta in H. destruct H as (_ & _ & _ & _ & Recent).
  destruct Recent as (lines & Hlines & Hlength & _); [discriminate|].
  exists lines. split; [exact Hlines|exact Hlength].
Defined.

End MoreInstances.
